(** * bacpypes application layer: device information cache, per-destination
      controllers and the application dispatcher (py27/bacpypes/app.py).

    The Python classes are embedded as state-passing functions.  Objects that
    the code shares by reference (DeviceInfo records, local objects) live in a
    store and are named by their position in it; dictionaries are finite maps.
    An exception leaves behind whatever the method had already written, so
    every method returns the state it reached together with its outcome. *)

From stdpp Require Import gmap strings list fin_maps.
From Stdlib Require Import ZArith.

Open Scope Z_scope.

(** ** Python outcomes *)

(** The built-in exceptions the embedded methods can raise.  [NoSuchObject]
    is the one artefact of the store: a reference that names no stored object,
    which Python cannot express. *)
Inductive PyExn :=
  | TypeError (msg : string)
  | KeyError
  | AttributeError (name : string)
  | RuntimeError (msg : string)
  | UnboundLocalError (name : string)
  | NoSuchObject.

Inductive result (E A : Type) :=
  | Return (a : A)
  | Raise (e : E).
Arguments Return {E A} a.
Arguments Raise {E A} e.

(** A method on a state [S] that may raise [E]. *)
Definition Py (S E A : Type) : Type := S → S * result E A.

Definition ret {S E A} (a : A) : Py S E A := λ s, (s, Return a).
Definition raise {S E A} (e : E) : Py S E A := λ s, (s, Raise e).
Definition bind {S E A B} (m : Py S E A) (k : A → Py S E B) : Py S E B :=
  λ s, match m s with
       | (s', Return a) => k a s'
       | (s', Raise e) => (s', Raise e)
       end.
Definition gets {S E A} (f : S → A) : Py S E A := λ s, (s, Return (f s)).
Definition modify {S E} (f : S → S) : Py S E unit := λ s, (f s, Return tt).

Notation "x <- m ;; k" := (bind m (λ x, k))
  (at level 100, m at next level, right associativity, only parsing).
Notation "m ;;; k" := (bind m (λ _, k))
  (at level 100, right associativity, only parsing).

(** ** Addresses *)

(** Modelled from the spec: the Address class of the pdu module, which is not
    part of this file.  The spec distinguishes local and remote station
    addresses from every other address form; the source names the two station
    forms [Address.localStationAddr] and [Address.remoteStationAddr] and reads
    the form from [addrType].  Addresses compare and hash by their contents. *)
Inductive AddrType :=
  | nullAddr
  | localBroadcastAddr
  | localStationAddr
  | remoteBroadcastAddr
  | remoteStationAddr
  | globalBroadcastAddr.

Record Address := mkAddress {
  addrType : AddrType;
  addrNet : option Z;
  addrAddr : list Z
}.

Global Instance AddrType_eq_dec : EqDecision AddrType.
Proof. solve_decision. Defined.

Global Instance AddrType_countable : Countable AddrType.
Proof.
  refine (inj_countable'
    (λ t, match t with
          | nullAddr => 0%nat | localBroadcastAddr => 1%nat
          | localStationAddr => 2%nat | remoteBroadcastAddr => 3%nat
          | remoteStationAddr => 4%nat | globalBroadcastAddr => 5%nat
          end)
    (λ n, match n with
          | 0%nat => nullAddr | 1%nat => localBroadcastAddr
          | 2%nat => localStationAddr | 3%nat => remoteBroadcastAddr
          | 4%nat => remoteStationAddr | _ => globalBroadcastAddr
          end) _).
  by intros [].
Defined.

Global Instance Address_eq_dec : EqDecision Address.
Proof. solve_decision. Defined.

Global Instance Address_countable : Countable Address.
Proof.
  refine (inj_countable'
    (λ a, (addrType a, addrNet a, addrAddr a))
    (λ t, mkAddress t.1.1 t.1.2 t.2) _).
  by intros [].
Defined.

(** [key.addrType in (Address.localStationAddr, Address.remoteStationAddr)] *)
Definition is_station (a : Address) : bool :=
  match addrType a with
  | localStationAddr | remoteStationAddr => true
  | _ => false
  end.

(** ** DeviceInfo and DeviceInfoCache *)

(** A value used as a key of the cache dictionary or handed to
    [get_device_info]: an integer, an Address, [None], or some other object
    (represented by a string). *)
Inductive PyKey :=
  | PyInt (n : Z)
  | PyAddr (a : Address)
  | PyNone
  | PyOther (s : string).

Global Instance PyKey_eq_dec : EqDecision PyKey.
Proof. solve_decision. Defined.

Global Instance PyKey_countable : Countable PyKey.
Proof.
  refine (inj_countable'
    (λ k, match k with
          | PyInt n => inl (inl n)
          | PyAddr a => inl (inr a)
          | PyNone => inr (inl ())
          | PyOther s => inr (inr s)
          end)
    (λ x, match x with
          | inl (inl n) => PyInt n
          | inl (inr a) => PyAddr a
          | inr (inl _) => PyNone
          | inr (inr s) => PyOther s
          end) _).
  by intros [].
Defined.

(** The dictionary key a field value stands for. *)
Definition id_key (i : option Z) : PyKey :=
  match i with Some n => PyInt n | None => PyNone end.
Definition addr_key (a : option Address) : PyKey :=
  match a with Some x => PyAddr x | None => PyNone end.

(** A reference to a stored object: its position in the store. *)
Abbreviation ref := nat.

Module DeviceInfo.

(** [_cache_keys] is not set by the constructor: [None] is the attribute
    being absent, [Some (i, a)] the tuple [(i, a)]. *)
Record t := mk {
  deviceIdentifier : option Z;
  address : option Address;
  maxApduLengthAccepted : Z;
  segmentationSupported : string;
  vendorID : option Z;
  maxNpduLength : Z;
  maxSegmentsAccepted : option Z;
  _cache_keys : option (option Z * option Address)
}.

Definition __init__ : t :=
  {| deviceIdentifier := None;
     address := None;
     maxApduLengthAccepted := 1024;
     segmentationSupported := "noSegmentation";
     vendorID := None;
     maxNpduLength := 1497;
     maxSegmentsAccepted := None;
     _cache_keys := None |}.

Definition set_deviceIdentifier (v : option Z) (d : t) : t :=
  mk v (address d) (maxApduLengthAccepted d) (segmentationSupported d)
     (vendorID d) (maxNpduLength d) (maxSegmentsAccepted d) (_cache_keys d).
Definition set_address (v : option Address) (d : t) : t :=
  mk (deviceIdentifier d) v (maxApduLengthAccepted d) (segmentationSupported d)
     (vendorID d) (maxNpduLength d) (maxSegmentsAccepted d) (_cache_keys d).
Definition set_maxApduLengthAccepted (v : Z) (d : t) : t :=
  mk (deviceIdentifier d) (address d) v (segmentationSupported d)
     (vendorID d) (maxNpduLength d) (maxSegmentsAccepted d) (_cache_keys d).
Definition set_segmentationSupported (v : string) (d : t) : t :=
  mk (deviceIdentifier d) (address d) (maxApduLengthAccepted d) v
     (vendorID d) (maxNpduLength d) (maxSegmentsAccepted d) (_cache_keys d).
Definition set_vendorID (v : option Z) (d : t) : t :=
  mk (deviceIdentifier d) (address d) (maxApduLengthAccepted d)
     (segmentationSupported d) v (maxNpduLength d) (maxSegmentsAccepted d)
     (_cache_keys d).
Definition set_cache_keys (v : option Z * option Address) (d : t) : t :=
  mk (deviceIdentifier d) (address d) (maxApduLengthAccepted d)
     (segmentationSupported d) (vendorID d) (maxNpduLength d)
     (maxSegmentsAccepted d) (Some v).

End DeviceInfo.

Global Instance DeviceInfo_eq_dec : EqDecision DeviceInfo.t.
Proof. solve_decision. Defined.

Module IAmRequest.

(** Modelled from the spec: the peer announcement, an IAmRequest of the apdu
    module, with the fields [add_device_info] reads: the identifier, a pair
    of object type and instance, the source address, and the capability
    values. *)
Record t := mk {
  iAmDeviceIdentifier : string * Z;
  pduSource : Address;
  maxAPDULengthAccepted : Z;
  segmentationSupported : string;
  vendorID : option Z
}.

End IAmRequest.

Module DeviceInfoCache.

(** [records] is the object store of DeviceInfo instances, [cache] the
    dictionary [self.cache], whose values are references into it. *)
Record t := mk {
  records : list DeviceInfo.t;
  cache : gmap PyKey ref
}.

Definition M := Py t PyExn.

Definition __init__ : t := {| records := []; cache := ∅ |}.

(** *** Store and dictionary primitives *)

Definition load (info : ref) : M DeviceInfo.t :=
  λ self, match records self !! info with
          | Some d => (self, Return d)
          | None => (self, Raise NoSuchObject)
          end.

(** Attribute assignment on a stored record. *)
Definition store (info : ref) (f : DeviceInfo.t → DeviceInfo.t) : M unit :=
  d <- load info ;;
  modify (λ self, mk (<[info := f d]> (records self)) (cache self)).

(** [DeviceInfo()] *)
Definition new (d : DeviceInfo.t) : M ref :=
  λ self, (mk (records self ++ [d]) (cache self),
           Return (length (records self))).

(** [self.cache.get(key, None)] *)
Definition cache_get (key : PyKey) : M (option ref) :=
  gets (λ self, cache self !! key).

(** [self.cache[key] = info] *)
Definition cache_set (key : PyKey) (info : ref) : M unit :=
  modify (λ self, mk (records self) (<[key := info]> (cache self))).

(** [del self.cache[key]] *)
Definition cache_del (key : PyKey) : M unit :=
  λ self, match cache self !! key with
          | Some _ => (mk (records self) (delete key (cache self)), Return tt)
          | None => (self, Raise KeyError)
          end.

(** *** Methods *)

Definition has_device_info (key : PyKey) (self : t) : bool :=
  bool_decide (is_Some (cache self !! key)).

Definition get_device_info (key : PyKey) : M (option ref) :=
  match key with
  | PyInt _ => cache_get key
  | PyAddr a =>
      if is_station a then
        current_info <- cache_get key ;;
        match current_info with
        | Some info => ret (Some info)
        | None =>
            info <- new (DeviceInfo.set_cache_keys (None, Some a)
                           (DeviceInfo.set_address (Some a)
                              DeviceInfo.__init__)) ;;
            cache_set key info ;;;
            ret (Some info)
        end
      else raise (TypeError "address must be a local or remote station")
  | _ => raise (TypeError "key must be integer or an address")
  end.

Definition update_device_info (info : ref) : M unit :=
  d <- load info ;;
  match DeviceInfo._cache_keys d with
  | None => raise (AttributeError "_cache_keys")
  | Some (cache_id, cache_address) =>
      cache_id' <-
        match cache_id with
        | Some i =>
            if bool_decide (DeviceInfo.deviceIdentifier d ≠ Some i) then
              cache_del (PyInt i) ;;;
              cache_set (id_key (DeviceInfo.deviceIdentifier d)) info ;;;
              ret (DeviceInfo.deviceIdentifier d)
            else ret cache_id
        | None => ret cache_id
        end ;;
      cache_address' <-
        match cache_address with
        | Some a =>
            if bool_decide (DeviceInfo.address d ≠ Some a) then
              cache_del (PyAddr a) ;;;
              cache_set (addr_key (DeviceInfo.address d)) info ;;;
              ret (DeviceInfo.address d)
            else ret cache_address
        | None => ret cache_address
        end ;;
      store info (DeviceInfo.set_cache_keys (cache_id', cache_address'))
  end.

Definition add_device_info (apdu : IAmRequest.t) : M unit :=
  found <- get_device_info (PyInt (IAmRequest.iAmDeviceIdentifier apdu).2) ;;
  match found with
  | Some info =>
      d <- load info ;;
      if bool_decide (DeviceInfo.address d = Some (IAmRequest.pduSource apdu)) then
        ret tt
      else
        store info (DeviceInfo.set_address (Some (IAmRequest.pduSource apdu))) ;;;
        store info (DeviceInfo.set_maxApduLengthAccepted (IAmRequest.maxAPDULengthAccepted apdu)) ;;;
        store info (DeviceInfo.set_segmentationSupported (IAmRequest.segmentationSupported apdu)) ;;;
        store info (DeviceInfo.set_vendorID (IAmRequest.vendorID apdu)) ;;;
        update_device_info info
  | None =>
      created <- get_device_info (PyAddr (IAmRequest.pduSource apdu)) ;;
      match created with
      | Some info =>
          store info (DeviceInfo.set_deviceIdentifier (Some (IAmRequest.iAmDeviceIdentifier apdu).2)) ;;;
          store info (DeviceInfo.set_maxApduLengthAccepted (IAmRequest.maxAPDULengthAccepted apdu)) ;;;
          store info (DeviceInfo.set_segmentationSupported (IAmRequest.segmentationSupported apdu)) ;;;
          store info (DeviceInfo.set_vendorID (IAmRequest.vendorID apdu)) ;;;
          update_device_info info
      | None => raise (AttributeError "deviceIdentifier")
      end
  end.

Definition release_device_info (info : ref) : M unit :=
  d <- load info ;;
  match DeviceInfo._cache_keys d with
  | None => raise (AttributeError "_cache_keys")
  | Some (cache_id, cache_address) =>
      match cache_id with
      | Some i => cache_del (PyInt i)
      | None => ret tt
      end ;;;
      match cache_address with
      | Some a => cache_del (PyAddr a)
      | None => ret tt
      end
  end.

End DeviceInfoCache.

(** ** Protocol messages *)

(** Modelled from the spec: the message classes of the apdu module, which is
    not part of this file.  Every message carries a source and a destination
    address; [pdu_type] is the base class that [isinstance] tests
    (Confirmed-Request, Unconfirmed-Request, SimpleAck, ComplexAck, Error,
    Reject, Abort, or none of these) and [class_name] is
    [apdu.__class__.__name__], the service the message belongs to. *)
Inductive PDUType :=
  | UnconfirmedRequestPDU
  | ConfirmedRequestPDU
  | SimpleAckPDU
  | ComplexAckPDU
  | ErrorPDU
  | RejectPDU
  | AbortPDU
  | OtherPDU.

Record APDU := mkAPDU {
  class_name : string;
  pdu_type : PDUType;
  pduSource : Address;
  pduDestination : Address;
  pduData : list Z
}.

Global Instance PDUType_eq_dec : EqDecision PDUType.
Proof. solve_decision. Defined.
Global Instance APDU_eq_dec : EqDecision APDU.
Proof. solve_decision. Defined.

(** [isinstance(apdu, ConfirmedRequestPDU)] *)
Definition is_confirmed_request (apdu : APDU) : bool :=
  match pdu_type apdu with ConfirmedRequestPDU => true | _ => false end.

(** [Error(errorClass=..., errorCode=..., context=apdu)] *)
Record Error := mkError {
  errorClass : string;
  errorCode : string;
  context : APDU
}.

(** Modelled from the spec: the downward interface of the comm module, which
    is not part of this file.  [Request] is the parent class's [request] and
    [Response] is [self.response]; both hand the message to the layer below
    and return nothing. *)
Inductive Event :=
  | Request (apdu : APDU)
  | Response (resp : Error).

(** Modelled from the spec: the exception classes of the errors module, which
    is not part of this file, as the [except] clauses of [indication] tell
    them apart: the reject family, the abort family, an execution error with
    its class and code, and any other [Exception].  What is not an
    [Exception] (an interpreter exit, a keyboard interrupt) is not a failure
    of the helper and is left out. *)
Inductive HelperExn :=
  | RejectException (reason : string)
  | AbortException (reason : string)
  | ExecutionError (errorClass errorCode : string)
  | OtherException (descr : string).

(** What [indication] itself can raise. *)
Inductive IndicationExn :=
  | UnrecognizedService (msg : string)
  | Reraised (err : HelperExn).

(** ** IOCB and the queueing controller *)

Module IOCB.

(** Modelled from the spec: the IOCB class of the iocb module, which is not
    part of this file.  A pending request wraps one request message
    ([args]) and a result slot that is still pending, holds a positive
    response, or holds an error, reject or abort outcome. *)
Inductive Outcome :=
  | Pending
  | Completed (msg : APDU)
  | Aborted (err : APDU).

Record t := mk {
  args : APDU;
  ioResult : Outcome
}.

Definition __init__ (apdu : APDU) : t := mk apdu Pending.

End IOCB.

Module ApplicationController.

Record t := mk {
  address : Address;
  active_iocb : option IOCB.t;
  ioQueue : list IOCB.t
}.

(** [IOQController.__init__]: idle, nothing queued. *)
Definition __init__ (address : Address) : t := mk address None [].

(** Modelled from the spec: [IOQController.active_io] of the iocb module,
    which makes the request the active one. *)
Definition active_io (iocb : IOCB.t) (self : t) : t :=
  mk (address self) (Some iocb) (ioQueue self).

(** [process_io], from the source: the request becomes the active one and
    is sent.  The calls of [request_fn] are returned, oldest first. *)
Definition process_io (iocb : IOCB.t) (self : t) : t * list APDU :=
  (active_io iocb self, [IOCB.args iocb]).

(** Modelled from the spec: [IOQController.request_io] of the iocb module
    (submit).  With no request active the new request is promoted and sent
    at once; otherwise it waits at the end of the queue. *)
Definition request_io (iocb : IOCB.t) (self : t) : t * list APDU :=
  match active_iocb self with
  | None => process_io iocb self
  | Some _ => (mk (address self) (active_iocb self) (ioQueue self ++ [iocb]), [])
  end.

(** Modelled from the spec: resolve, the common part of
    [IOQController.complete_io] and [abort_io] of the iocb module.  The
    request is marked resolved with the outcome; then the next queued
    request, if any, is dequeued, made active and sent, and otherwise the
    controller has no active request.  Returns the controller, the resolved
    request handed back to its owner, and the sends. *)
Definition resolve (iocb : option IOCB.t) (outcome : IOCB.Outcome) (self : t)
  : t * list IOCB.t * list APDU :=
  let done :=
    match iocb with
    | Some r => [IOCB.mk (IOCB.args r) outcome]
    | None => []
    end in
  match ioQueue self with
  | next :: rest =>
      let '(self', sends) := process_io next (mk (address self) None rest) in
      (self', done, sends)
  | [] => (mk (address self) None [], done, [])
  end.

Definition complete_io (iocb : option IOCB.t) (msg : APDU) (self : t) :=
  resolve iocb (IOCB.Completed msg) self.

Definition abort_io (iocb : option IOCB.t) (err : APDU) (self : t) :=
  resolve iocb (IOCB.Aborted err) self.

(** *** Runs of one controller *)

Inductive Op :=
  | Submit (iocb : IOCB.t)
  | Resolve (outcome : IOCB.Outcome).

(** A controller together with the history of its send callback and of the
    requests resolved so far, both oldest first. *)
Record Run := mkRun {
  ctl : t;
  sent : list APDU;
  resolved : list IOCB.t
}.

Definition step (r : Run) (op : Op) : Run :=
  match op with
  | Submit iocb =>
      let '(c, sends) := request_io iocb (ctl r) in
      mkRun c (sent r ++ sends) (resolved r)
  | Resolve outcome =>
      let '(c, done, sends) := resolve (active_iocb (ctl r)) outcome (ctl r) in
      mkRun c (sent r ++ sends) (resolved r ++ done)
  end.

Definition run (a : Address) (ops : list Op) : Run :=
  foldl step (mkRun (__init__ a) [] []) ops.

(** The requests submitted by a list of calls, in submission order. *)
Definition submitted (ops : list Op) : list IOCB.t :=
  omap (λ op, match op with Submit iocb => Some iocb | Resolve _ => None end) ops.

(** The requests handed to the send callback and not yet resolved. *)
Definition in_flight (r : Run) : list APDU :=
  drop (length (resolved r)) (sent r).

End ApplicationController.

(** ** Application *)

Module LocalObject.

(** Modelled from the spec: a hosted application object, of which the source
    reads a name, an identifier (object type and instance number) and, on the
    local device object, the list of identifiers; [_app] records whether the
    object is attached to an application.  The empty name and the absent
    identifier are the values Python takes for false. *)
Record t := mk {
  objectName : string;
  objectIdentifier : option (string * Z);
  objectList : option (list (string * Z));
  _app : bool
}.

Definition set_objectList (v : option (list (string * Z))) (o : t) : t :=
  mk (objectName o) (objectIdentifier o) v (_app o).
Definition set_app (v : bool) (o : t) : t :=
  mk (objectName o) (objectIdentifier o) (objectList o) v.

End LocalObject.

Module Application.

(** [objects] is the store of the hosted objects, to which the dictionaries
    and [localDevice] refer; [localDevice = None] is the attribute never
    having been assigned.  [downstream] is what was handed to the layer below
    and [completed] the resolved requests handed back to their owners, both
    oldest first. *)
Record t := mk {
  objects : list LocalObject.t;
  objectName : gmap string ref;
  objectIdentifier : gmap (option (string * Z)) ref;
  localDevice : option ref;
  deviceInfoCache : DeviceInfoCache.t;
  controllers : gmap Address ApplicationController.t;
  downstream : list Event;
  completed : list IOCB.t
}.

Definition M := Py t PyExn.

Definition set_objects (v : list LocalObject.t) (self : t) : t :=
  mk v (objectName self) (objectIdentifier self) (localDevice self)
     (deviceInfoCache self) (controllers self) (downstream self) (completed self).
Definition set_objectName (v : gmap string ref) (self : t) : t :=
  mk (objects self) v (objectIdentifier self) (localDevice self)
     (deviceInfoCache self) (controllers self) (downstream self) (completed self).
Definition set_objectIdentifier (v : gmap (option (string * Z)) ref) (self : t) : t :=
  mk (objects self) (objectName self) v (localDevice self)
     (deviceInfoCache self) (controllers self) (downstream self) (completed self).
Definition set_controllers (v : gmap Address ApplicationController.t) (self : t) : t :=
  mk (objects self) (objectName self) (objectIdentifier self) (localDevice self)
     (deviceInfoCache self) v (downstream self) (completed self).
Definition set_downstream (v : list Event) (self : t) : t :=
  mk (objects self) (objectName self) (objectIdentifier self) (localDevice self)
     (deviceInfoCache self) (controllers self) v (completed self).
Definition set_completed (v : list IOCB.t) (self : t) : t :=
  mk (objects self) (objectName self) (objectIdentifier self) (localDevice self)
     (deviceInfoCache self) (controllers self) (downstream self) v.

(** *** Primitives *)

Definition load {E} (exn : E) (obj : ref) : Py t E LocalObject.t :=
  λ self, match objects self !! obj with
          | Some o => (self, Return o)
          | None => (self, Raise exn)
          end.

Definition store (obj : ref) (f : LocalObject.t → LocalObject.t) : M unit :=
  o <- load NoSuchObject obj ;;
  modify (λ self, set_objects (<[obj := f o]> (objects self)) self).

(** The parent class's [request] and [self.response]: the message goes to the
    layer below. *)
Definition emit {E} (e : Event) : Py t E unit :=
  modify (λ self, set_downstream (downstream self ++ [e]) self).

(** A resolved request goes back to whoever holds its handle. *)
Definition hand_back (done : list IOCB.t) : M unit :=
  modify (λ self, set_completed (completed self ++ done) self).

(** *** Construction *)

(** [Application.__init__(localDevice, deviceInfoCache=...)] over the objects
    that exist; the deprecated [localAddress] and the element identifier are
    left out. *)
Definition __init__ (objs : list LocalObject.t) (localDevice : option ref)
    (deviceInfoCache : option DeviceInfoCache.t) : result PyExn t :=
  let cache := default DeviceInfoCache.__init__ deviceInfoCache in
  match localDevice with
  | None => Return (mk objs ∅ ∅ None cache ∅ [] [])
  | Some dev =>
      match objs !! dev with
      | None => Raise NoSuchObject
      | Some d =>
          Return (mk (<[dev := LocalObject.set_app true d]> objs)
                     {[ LocalObject.objectName d := dev ]}
                     {[ LocalObject.objectIdentifier d := dev ]}
                     (Some dev) cache ∅ [] [])
      end
  end.

Section Methods.

(** [ObjectIdentifier.maximum_instance_number], declared in the primitivedata
    module. *)
Variable maximum_instance_number : Z.

(** *** The object registry *)

Definition add_object (obj : ref) : M unit :=
  o <- load NoSuchObject obj ;;
  let object_name := LocalObject.objectName o in
  if bool_decide (object_name = "") then
    raise (RuntimeError "object name required")
  else
    match LocalObject.objectIdentifier o with
    | None => raise (RuntimeError "object identifier required")
    | Some object_identifier =>
        if bool_decide (maximum_instance_number ≤ object_identifier.2) then
          raise (RuntimeError "invalid object identifier")
        else
          names <- gets objectName ;;
          if bool_decide (is_Some (names !! object_name)) then
            raise (RuntimeError "already an object with name")
          else
            identifiers <- gets objectIdentifier ;;
            if bool_decide (is_Some (identifiers !! Some object_identifier)) then
              raise (RuntimeError "already an object with identifier")
            else
              modify (λ self, set_objectName (<[object_name := obj]> (objectName self)) self) ;;;
              modify (λ self, set_objectIdentifier
                                (<[Some object_identifier := obj]> (objectIdentifier self)) self) ;;;
              attr <- gets localDevice ;;
              match attr with
              | None => raise (AttributeError "localDevice")
              | Some dev =>
                  d <- load NoSuchObject dev ;;
                  match LocalObject.objectList d with
                  | Some (first :: others) =>
                      store dev (LocalObject.set_objectList
                                   (Some ((first :: others) ++ [object_identifier])))
                  | _ => ret tt
                  end
              end ;;;
              store obj (LocalObject.set_app true)
    end.

Definition get_object_id (objid : option (string * Z)) (self : t) : option ref :=
  objectIdentifier self !! objid.

Definition get_object_name (objname : string) (self : t) : option ref :=
  objectName self !! objname.

(** *** Requests and confirmations *)

Definition request (apdu : APDU) : M (option IOCB.t) :=
  match pdu_type apdu with
  | UnconfirmedRequestPDU =>
      emit (Request apdu) ;;;
      ret None
  | ConfirmedRequestPDU =>
      let iocb := IOCB.__init__ apdu in
      found <- gets (λ self, controllers self !! pduDestination apdu) ;;
      let controller :=
        match found with
        | Some c => c
        | None => ApplicationController.__init__ (pduDestination apdu)
        end in
      let '(controller', sends) := ApplicationController.request_io iocb controller in
      modify (λ self, set_controllers
                        (<[pduDestination apdu := controller']> (controllers self)) self) ;;;
      modify (λ self, set_downstream (downstream self ++ (Request <$> sends)) self) ;;;
      ret (Some iocb)
  | _ => raise (UnboundLocalError "iocb")
  end.

Definition confirmation (apdu : APDU) : M unit :=
  found <- gets (λ self, controllers self !! pduSource apdu) ;;
  match found with
  | None => ret tt
  | Some controller =>
      let active := ApplicationController.active_iocb controller in
      outcome <-
        match pdu_type apdu with
        | SimpleAckPDU | ComplexAckPDU =>
            ret (ApplicationController.complete_io active apdu controller)
        | ErrorPDU | RejectPDU | AbortPDU =>
            ret (ApplicationController.abort_io active apdu controller)
        | _ => raise (RuntimeError "unrecognized APDU type")
        end ;;
      let '(controller', done, sends) := outcome in
      modify (λ self, set_controllers
                        (<[pduSource apdu := controller']> (controllers self)) self) ;;;
      hand_back done ;;;
      modify (λ self, set_downstream (downstream self ++ (Request <$> sends)) self) ;;;
      match ApplicationController.ioQueue controller' with
      | [] => modify (λ self, set_controllers (delete (pduSource apdu) (controllers self)) self)
      | _ :: _ => ret tt
      end
  end.

(** *** Indications *)

(** A service helper is a method of the application: it receives the message,
    may change the application and send through it, and returns or raises. *)
Definition Helper := APDU → t → t * option HelperExn.

(** [getattr(self, name, None)] for the helper methods of the class. *)
Variable helpers : string → option Helper.

Definition indication (apdu : APDU) : Py t IndicationExn unit :=
  let helperName := "do_" +:+ class_name apdu in
  match helpers helperName with
  | None =>
      if is_confirmed_request apdu then
        raise (UnrecognizedService ("no function " +:+ helperName))
      else ret tt
  | Some helperFn =>
      λ self,
        match helperFn apdu self with
        | (self', None) => (self', Return tt)
        | (self', Some (RejectException reason)) =>
            (self', Raise (Reraised (RejectException reason)))
        | (self', Some (AbortException reason)) =>
            (self', Raise (Reraised (AbortException reason)))
        | (self', Some (ExecutionError errorClass errorCode)) =>
            if is_confirmed_request apdu then
              emit (Response (mkError errorClass errorCode apdu)) self'
            else (self', Return tt)
        | (self', Some (OtherException _)) =>
            if is_confirmed_request apdu then
              emit (Response (mkError "device" "operationalProblem" apdu)) self'
            else (self', Return tt)
        end
  end.

End Methods.

End Application.

(** ** Removing objects *)

Module ObjectRegistry.
Import Application.

(** [delete_object] can raise what the other methods raise and, from
    [list.index], ValueError. *)
Inductive Exn :=
  | Builtin (e : PyExn)
  | ValueError (msg : string).

Definition M := Py Application.t Exn.

(** [l.index(x)]: the position of the first element equal to [x]. *)
Fixpoint index {A} `{EqDecision A} (x : A) (l : list A) : option nat :=
  match l with
  | [] => None
  | y :: l' => if decide (x = y) then Some 0%nat else S <$> index x l'
  end.

Definition store (obj : ref) (f : LocalObject.t → LocalObject.t) : M unit :=
  o <- load (Builtin NoSuchObject) obj ;;
  modify (λ self, set_objects (<[obj := f o]> (objects self)) self).

(** [del self.objectName[object_name]] *)
Definition del_objectName (object_name : string) : M unit :=
  λ self, match objectName self !! object_name with
          | Some _ => (set_objectName (delete object_name (objectName self)) self,
                       Return tt)
          | None => (self, Raise (Builtin KeyError))
          end.

(** [del self.objectIdentifier[object_identifier]] *)
Definition del_objectIdentifier (object_identifier : option (string * Z)) : M unit :=
  λ self, match objectIdentifier self !! object_identifier with
          | Some _ => (set_objectIdentifier
                         (delete object_identifier (objectIdentifier self)) self,
                       Return tt)
          | None => (self, Raise (Builtin KeyError))
          end.

Definition delete_object (obj : ref) : M unit :=
  o <- load (Builtin NoSuchObject) obj ;;
  let object_name := LocalObject.objectName o in
  let object_identifier := LocalObject.objectIdentifier o in
  del_objectName object_name ;;;
  del_objectIdentifier object_identifier ;;;
  attr <- gets localDevice ;;
  match attr with
  | None => raise (Builtin (AttributeError "localDevice"))
  | Some dev =>
      d <- load (Builtin NoSuchObject) dev ;;
      match LocalObject.objectList d with
      | Some (first :: others) =>
          match object_identifier ≫= (λ i, index i (first :: others)) with
          | Some indx =>
              store dev (LocalObject.set_objectList
                           (Some (delete indx (first :: others))))
          | None => raise (ValueError "not in list")
          end
      | _ => ret tt
      end
  end ;;;
  store obj (LocalObject.set_app false).

(** *** Vocabulary of the registry statements *)

(** The objects after a successful [add_object]. *)
Definition registered (obj dev : ref) (o d : LocalObject.t) (ident : string * Z)
    (objs : list LocalObject.t) : list LocalObject.t :=
  <[obj := LocalObject.set_app true o]>
    (match LocalObject.objectList d with
     | Some (first :: others) =>
         <[dev := LocalObject.set_objectList (Some ((first :: others) ++ [ident])) d]> objs
     | _ => objs
     end).

(** The five checks of [add_object]. *)
Definition unacceptable (maximum_instance_number : Z) (self : t) (o : LocalObject.t)
    : Prop :=
  LocalObject.objectName o = "" ∨
  LocalObject.objectIdentifier o = None ∨
  (∃ ident, LocalObject.objectIdentifier o = Some ident ∧
            maximum_instance_number ≤ ident.2) ∨
  is_Some (objectName self !! LocalObject.objectName o) ∨
  is_Some (objectIdentifier self !! LocalObject.objectIdentifier o).

(** The objects after a successful [delete_object], if the device's list
    allows it. *)
Definition unregistered (obj dev : ref) (o d : LocalObject.t)
    (objs : list LocalObject.t) : option (list LocalObject.t) :=
  match LocalObject.objectList d with
  | Some (first :: others) =>
      indx ← LocalObject.objectIdentifier o ≫=
               (λ i, index i (first :: others));
      Some (<[obj := LocalObject.set_app false o]>
              (<[dev := LocalObject.set_objectList
                          (Some (delete indx (first :: others))) d]> objs))
  | _ => Some (<[obj := LocalObject.set_app false o]> objs)
  end.

End ObjectRegistry.

(** ** The dispatcher over any queueing controller *)

Module Dispatcher.
Import Application.

Section OverController.

(** [IOQController.request_io], [complete_io] and [abort_io] are methods of the
    iocb module, which is not part of this file.  Here they are whatever
    functions of the controller they may be: each returns the controller
    afterwards and the messages it handed to [request_fn], and the two that
    resolve also return the requests they resolved. *)
Variable request_io :
  IOCB.t → ApplicationController.t → ApplicationController.t * list APDU.
Variable complete_io abort_io :
  option IOCB.t → APDU → ApplicationController.t →
  ApplicationController.t * list IOCB.t * list APDU.

Definition request (apdu : APDU) : M (option IOCB.t) :=
  match pdu_type apdu with
  | UnconfirmedRequestPDU =>
      emit (Request apdu) ;;;
      ret None
  | ConfirmedRequestPDU =>
      let iocb := IOCB.__init__ apdu in
      found <- gets (λ self, controllers self !! pduDestination apdu) ;;
      let controller :=
        match found with
        | Some c => c
        | None => ApplicationController.__init__ (pduDestination apdu)
        end in
      let '(controller', sends) := request_io iocb controller in
      modify (λ self, set_controllers
                        (<[pduDestination apdu := controller']> (controllers self)) self) ;;;
      modify (λ self, set_downstream (downstream self ++ (Request <$> sends)) self) ;;;
      ret (Some iocb)
  | _ => raise (UnboundLocalError "iocb")
  end.

Definition confirmation (apdu : APDU) : M unit :=
  found <- gets (λ self, controllers self !! pduSource apdu) ;;
  match found with
  | None => ret tt
  | Some controller =>
      let active := ApplicationController.active_iocb controller in
      outcome <-
        match pdu_type apdu with
        | SimpleAckPDU | ComplexAckPDU => ret (complete_io active apdu controller)
        | ErrorPDU | RejectPDU | AbortPDU => ret (abort_io active apdu controller)
        | _ => raise (RuntimeError "unrecognized APDU type")
        end ;;
      let '(controller', done, sends) := outcome in
      modify (λ self, set_controllers
                        (<[pduSource apdu := controller']> (controllers self)) self) ;;;
      hand_back done ;;;
      modify (λ self, set_downstream (downstream self ++ (Request <$> sends)) self) ;;;
      match ApplicationController.ioQueue controller' with
      | [] => modify (λ self, set_controllers (delete (pduSource apdu) (controllers self)) self)
      | _ :: _ => ret tt
      end
  end.


End OverController.

End Dispatcher.

(** ** Vocabulary of the statements *)

(** The record an announcement leaves behind when neither its identifier nor
    its source address was known: the announced values, the default transit
    limits, and the index keys under which the cache holds it. *)
Definition announced (apdu : IAmRequest.t) : DeviceInfo.t :=
  DeviceInfo.mk (Some (IAmRequest.iAmDeviceIdentifier apdu).2)
    (Some (IAmRequest.pduSource apdu))
    (IAmRequest.maxAPDULengthAccepted apdu)
    (IAmRequest.segmentationSupported apdu)
    (IAmRequest.vendorID apdu) 1497 None
    (Some (None, Some (IAmRequest.pduSource apdu))).

(** The outcome with which a confirmation message resolves the active
    request: success for the two acknowledgements, failure for error, reject
    and abort; any other message resolves nothing. *)
Definition resolution (apdu : APDU) : option IOCB.Outcome :=
  match pdu_type apdu with
  | SimpleAckPDU | ComplexAckPDU => Some (IOCB.Completed apdu)
  | ErrorPDU | RejectPDU | AbortPDU => Some (IOCB.Aborted apdu)
  | _ => None
  end.

(** The invariant of a controller's run: the sends follow the submissions in
    order with the queue holding the rest, everything sent is resolved except
    the active request, and an idle controller has nothing queued. *)
Record serialized (ops : list ApplicationController.Op)
    (r : ApplicationController.Run) : Prop := {
  ser_order :
    IOCB.args <$> ApplicationController.submitted ops =
      ApplicationController.sent r
        ++ (IOCB.args <$> ApplicationController.ioQueue (ApplicationController.ctl r));
  ser_sent :
    ApplicationController.sent r =
      (IOCB.args <$> ApplicationController.resolved r)
        ++ (IOCB.args <$> option_list
              (ApplicationController.active_iocb (ApplicationController.ctl r)));
  ser_idle :
    ApplicationController.active_iocb (ApplicationController.ctl r) = None →
    ApplicationController.ioQueue (ApplicationController.ctl r) = []
}.

(** What a client of the cache can do with it: call its methods, and assign
    the identifier or the address of a record it holds. *)
Inductive CacheCall :=
  | CallGet (key : PyKey)
  | CallAdd (apdu : IAmRequest.t)
  | CallUpdate (info : ref)
  | CallRelease (info : ref)
  | AssignIdentifier (info : ref) (v : option Z)
  | AssignAddress (info : ref) (v : option Address).

Definition cache_exec (self : DeviceInfoCache.t) (c : CacheCall) : DeviceInfoCache.t :=
  match c with
  | CallGet key => (DeviceInfoCache.get_device_info key self).1
  | CallAdd apdu => (DeviceInfoCache.add_device_info apdu self).1
  | CallUpdate info => (DeviceInfoCache.update_device_info info self).1
  | CallRelease info => (DeviceInfoCache.release_device_info info self).1
  | AssignIdentifier info v =>
      (DeviceInfoCache.store info (DeviceInfo.set_deviceIdentifier v) self).1
  | AssignAddress info v =>
      (DeviceInfoCache.store info (DeviceInfo.set_address v) self).1
  end.

Definition cache_run (calls : list CacheCall) : DeviceInfoCache.t :=
  foldl cache_exec DeviceInfoCache.__init__ calls.

(** No integer key in the index, and no record with a stored identifier key. *)
Record identifier_free (self : DeviceInfoCache.t) : Prop := {
  no_int_key : ∀ n, DeviceInfoCache.cache self !! PyInt n = None;
  no_id_key : ∀ info d keys,
    DeviceInfoCache.records self !! info = Some d →
    DeviceInfo._cache_keys d = Some keys → keys.1 = None
}.

(** The index agrees with the records it names: an entry under an address
    names a stored record whose stored address key is that address, an entry
    under [None] names a stored record whose stored address key is null, and
    no other kind of key is entered. *)
Record index_sound (self : DeviceInfoCache.t) : Prop := {
  addr_entry : ∀ a info,
    DeviceInfoCache.cache self !! PyAddr a = Some info →
    ∃ d, DeviceInfoCache.records self !! info = Some d ∧
         DeviceInfo._cache_keys d = Some (None, Some a);
  none_entry : ∀ info,
    DeviceInfoCache.cache self !! PyNone = Some info →
    ∃ d, DeviceInfoCache.records self !! info = Some d ∧
         DeviceInfo._cache_keys d = Some (None, None);
  other_entry : ∀ s, DeviceInfoCache.cache self !! PyOther s = None
}.

(** A record after an announcement was copied onto it. *)
Definition refreshed (apdu : IAmRequest.t) (d : DeviceInfo.t) : DeviceInfo.t :=
  DeviceInfo.mk (DeviceInfo.deviceIdentifier d) (DeviceInfo.address d)
    (IAmRequest.maxAPDULengthAccepted apdu)
    (IAmRequest.segmentationSupported apdu)
    (IAmRequest.vendorID apdu)
    (DeviceInfo.maxNpduLength d) (DeviceInfo.maxSegmentsAccepted d)
    (DeviceInfo._cache_keys d).

(** ** Sample data *)

Definition station1 : Address := mkAddress localStationAddr None [1].
Definition station2 : Address := mkAddress remoteStationAddr (Some 5) [2].
Definition everyone : Address := mkAddress globalBroadcastAddr None [].

(** Device 7 announcing itself from a given address. *)
Definition i_am (a : Address) : IAmRequest.t :=
  IAmRequest.mk ("device", 7) a 480 "segmentedBoth" (Some 15).

(** The cache after device 7 announced itself from [station1]. *)
Definition one_device : DeviceInfoCache.t :=
  DeviceInfoCache.mk [announced (i_am station1)] (<[PyAddr station1 := 0%nat]> ∅).

Definition who_is : APDU :=
  mkAPDU "WhoIsRequest" UnconfirmedRequestPDU station1 everyone [].
Definition read1 : APDU :=
  mkAPDU "ReadPropertyRequest" ConfirmedRequestPDU station1 station2 [1].
Definition read2 : APDU :=
  mkAPDU "ReadPropertyRequest" ConfirmedRequestPDU station1 station2 [2].
Definition ack1 : APDU :=
  mkAPDU "ReadPropertyACK" ComplexAckPDU station2 station1 [1].
Definition read3 : APDU :=
  mkAPDU "ReadPropertyRequest" ConfirmedRequestPDU station1 station2 [3].
Definition ack2 : APDU :=
  mkAPDU "ReadPropertyACK" ComplexAckPDU station2 station1 [2].
Definition cov : APDU :=
  mkAPDU "UnconfirmedCOVNotificationRequest" UnconfirmedRequestPDU station2 station1 [3].

Definition analog_value : LocalObject.t :=
  LocalObject.mk "AV1" (Some ("analogValue", 1)) None false.

(** An application constructed without a local device, next to one object
    that is not yet registered. *)
Definition bare_app : Application.t :=
  Application.mk [analog_value] ∅ ∅ None DeviceInfoCache.__init__ ∅ [] [].

(** The same application with two reads queued for [station2]. *)
Definition two_reads : Application.t :=
  (Application.request read2 (Application.request read1 bare_app).1).1.

(** A class whose only helper serves ReadProperty and raises the given
    exception. *)
Definition failing_helpers (failure : HelperExn) (name : string)
    : option Application.Helper :=
  if String.eqb name "do_ReadPropertyRequest"
  then Some (λ _ self, (self, Some failure))
  else None.

(** Device 7 announcing itself again from [station1] with other capabilities. *)
Definition i_am_again : IAmRequest.t :=
  IAmRequest.mk ("device", 7) station1 1476 "noSegmentation" (Some 15).

(** Two devices, each indexed under its own address. *)
Definition two_devices : DeviceInfoCache.t :=
  DeviceInfoCache.mk
    [announced (i_am station1);
     announced (IAmRequest.mk ("device", 8) station2 480 "segmentedBoth" (Some 15))]
    (<[PyAddr station2 := 1%nat]> (<[PyAddr station1 := 0%nat]> ∅)).

(** A record that is indexed under its identifier as well, as a client that
    sets [_cache_keys] itself could prepare it. *)
Definition indexed_by_identifier : DeviceInfoCache.t :=
  DeviceInfoCache.mk
    [DeviceInfo.mk (Some 7) (Some station1) 480 "segmentedBoth" (Some 15) 1497 None
       (Some (Some 7, Some station1))]
    (<[PyInt 7 := 0%nat]> (<[PyAddr station1 := 0%nat]> ∅)).

Definition simple_ack : APDU :=
  mkAPDU "SimpleAckPDU" SimpleAckPDU station2 station1 [].
Definition stray : APDU :=
  mkAPDU "ReadPropertyACK" ComplexAckPDU everyone station1 [9].
Definition echoed_request : APDU :=
  mkAPDU "ReadPropertyRequest" ConfirmedRequestPDU station2 station1 [1].

Definition device_object : LocalObject.t :=
  LocalObject.mk "device" (Some ("device", 7)) (Some [("device", 7)]) false.
Definition quiet_device : LocalObject.t :=
  LocalObject.mk "device" (Some ("device", 7)) (Some []) false.

(** An application constructed around [device_object], next to one object
    that is not yet registered. *)
Definition hosted_app : Application.t :=
  Application.mk [LocalObject.set_app true device_object; analog_value]
    (<["device" := 0%nat]> ∅) (<[Some ("device", 7) := 0%nat]> ∅) (Some 0%nat)
    DeviceInfoCache.__init__ ∅ [] [].

(** The same around a device whose object list is empty. *)
Definition quiet_app : Application.t :=
  Application.mk [LocalObject.set_app true quiet_device; analog_value]
    (<["device" := 0%nat]> ∅) (<[Some ("device", 7) := 0%nat]> ∅) (Some 0%nat)
    DeviceInfoCache.__init__ ∅ [] [].

(** A helper that answers a read with an error response of its own and
    returns. *)
Definition answering_helpers (name : string) : option Application.Helper :=
  if String.eqb name "do_ReadPropertyRequest"
  then Some (λ apdu self,
               (Application.set_downstream
                  (Application.downstream self
                     ++ [Response (mkError "property" "unknownProperty" apdu)]) self,
                None))
  else None.

(** The record of [one_device] after its address was assigned [station2]. *)
Definition moved_device : DeviceInfoCache.t :=
  DeviceInfoCache.mk
    [DeviceInfo.set_address (Some station2) (announced (i_am station1))]
    (<[PyAddr station1 := 0%nat]> ∅).

(** [two_devices] after the first record was assigned the second's address. *)
Definition colliding_devices : DeviceInfoCache.t :=
  DeviceInfoCache.mk
    [DeviceInfo.set_address (Some station2) (announced (i_am station1));
     announced (IAmRequest.mk ("device", 8) station2 480 "segmentedBoth" (Some 15))]
    (<[PyAddr station2 := 1%nat]> (<[PyAddr station1 := 0%nat]> ∅)).



(** [bare_app] with the name of its object registered and the identifier not. *)
Definition half_registered : Application.t :=
  Application.mk [analog_value] (<["AV1" := 0%nat]> ∅) ∅ None
    DeviceInfoCache.__init__ ∅ [] [].

(** [bare_app] with its object in both indexes, as [add_object] leaves it. *)
Definition registered_without_device : Application.t :=
  Application.mk [analog_value] (<["AV1" := 0%nat]> ∅)
    (<[Some ("analogValue", 1) := 0%nat]> ∅) None
    DeviceInfoCache.__init__ ∅ [] [].

(** [hosted_app] with the second object in both indexes and not in the
    device's object list. *)
Definition unlisted_app : Application.t :=
  Application.mk [LocalObject.set_app true device_object; analog_value]
    (<["AV1" := 1%nat]> (<["device" := 0%nat]> ∅))
    (<[Some ("analogValue", 1) := 1%nat]> (<[Some ("device", 7) := 0%nat]> ∅))
    (Some 0%nat) DeviceInfoCache.__init__ ∅ [] [].

(** * Properties *)

(** ** The outcome monad *)

Lemma bind_eq {S E A B} (m : Py S E A) (k : A → Py S E B) s s' a :
  m s = (s', Return a) → bind m k s = k a s'.
Proof. intros H. unfold bind. by rewrite H. Qed.

Lemma bind_fst {S E A B} (P : S → Prop) (m : Py S E A) (k : A → Py S E B) s :
  (∀ s' e, m s = (s', Raise e) → P s') →
  (∀ s' a, m s = (s', Return a) → P (k a s').1) →
  P (bind m k s).1.
Proof.
  intros Hraise Hret. unfold bind.
  destruct (m s) as [s' [a|e]] eqn:Hm; [by eapply Hret|by eapply Hraise].
Qed.

Lemma snoc_lookup {A} (l : list A) (x : A) : (l ++ [x]) !! length l = Some x.
Proof. by rewrite lookup_app_r, Nat.sub_diag. Qed.

Lemma snoc_insert {A} (l : list A) (x y : A) :
  <[length l := y]> (l ++ [x]) = l ++ [y].
Proof. by rewrite insert_app_r_alt, Nat.sub_diag. Qed.

(** ** DeviceInfoCache *)

Module DeviceInfoCacheFacts.
Import DeviceInfoCache.

Lemma get_device_info_int n self :
  get_device_info (PyInt n) self = (self, Return (cache self !! PyInt n)).
Proof. reflexivity. Qed.

Lemma get_device_info_hit a self info :
  is_station a = true → cache self !! PyAddr a = Some info →
  get_device_info (PyAddr a) self = (self, Return (Some info)).
Proof.
  intros Hst Hc. unfold get_device_info. rewrite Hst.
  unfold bind, cache_get, gets. by rewrite Hc.
Qed.

Lemma get_device_info_miss a self :
  is_station a = true → cache self !! PyAddr a = None →
  get_device_info (PyAddr a) self =
    (mk (records self ++
           [DeviceInfo.mk None (Some a) 1024 "noSegmentation" None 1497 None
              (Some (None, Some a))])
        (<[PyAddr a := length (records self)]> (cache self)),
     Return (Some (length (records self)))).
Proof.
  intros Hst Hc. unfold get_device_info. rewrite Hst.
  unfold bind, cache_get, gets. by rewrite Hc.
Qed.

Lemma load_eq self info d :
  records self !! info = Some d → load info self = (self, Return d).
Proof. intros H. unfold load. by rewrite H. Qed.

Lemma store_eq self info d f :
  records self !! info = Some d →
  store info f self = (mk (<[info := f d]> (records self)) (cache self), Return tt).
Proof. intros H. unfold store. by rewrite (bind_eq _ _ _ _ _ (load_eq _ _ _ H)). Qed.

Lemma cache_del_eq self key info :
  cache self !! key = Some info →
  cache_del key self = (mk (records self) (delete key (cache self)), Return tt).
Proof. intros H. unfold cache_del. by rewrite H. Qed.

(** With no identifier key stored and the address key up to date, reindexing
    changes nothing, whatever the identifier field holds. *)
Lemma update_device_info_null_id self info d ca :
  records self !! info = Some d →
  DeviceInfo._cache_keys d = Some (None, ca) →
  DeviceInfo.address d = ca →
  update_device_info info self = (self, Return tt).
Proof.
  intros Hd Hk Ha. unfold update_device_info.
  rewrite (bind_eq _ _ _ _ _ (load_eq _ _ _ Hd)), Hk.
  assert (Hsame : <[info := DeviceInfo.set_cache_keys (None, ca) d]> (records self)
                  = records self).
  { apply list_insert_id. rewrite Hd. f_equal.
    destruct d; unfold DeviceInfo.set_cache_keys; simpl in *. congruence. }
  destruct ca as [a|]; simpl.
  - rewrite bool_decide_eq_false_2 by (rewrite Ha; naive_solver).
    do 2 (unfold bind at 1; simpl).
    rewrite (store_eq _ _ _ _ Hd), Hsame. by destruct self.
  - do 2 (unfold bind at 1; simpl).
    rewrite (store_eq _ _ _ _ Hd), Hsame. by destruct self.
Qed.

(** An announcement whose identifier and source address are both unknown to
    the index adds one record, indexed under the address only. *)
Lemma add_device_info_fresh (apdu : IAmRequest.t) self :
  cache self !! PyInt (IAmRequest.iAmDeviceIdentifier apdu).2 = None →
  cache self !! PyAddr (IAmRequest.pduSource apdu) = None →
  is_station (IAmRequest.pduSource apdu) = true →
  add_device_info apdu self =
    (mk (records self ++ [announced apdu])
        (<[PyAddr (IAmRequest.pduSource apdu) := length (records self)]> (cache self)),
     Return tt).
Proof.
  intros Hi Ha Hst. unfold add_device_info.
  rewrite (bind_eq _ _ _ _ _ (get_device_info_int _ _)), Hi.
  rewrite (bind_eq _ _ _ _ _ (get_device_info_miss _ _ Hst Ha)).
  destruct self as [rs c]; simpl in *.
  repeat (erewrite bind_eq; [|apply store_eq; simpl; apply snoc_lookup];
          simpl; rewrite snoc_insert).
  erewrite update_device_info_null_id;
    [reflexivity|simpl; apply snoc_lookup|reflexivity|reflexivity].
Qed.

(** *** The identifier index stays empty *)

Lemma identifier_free_store self info f :
  (∀ d, DeviceInfo._cache_keys (f d) = DeviceInfo._cache_keys d
        ∨ ∃ ca, DeviceInfo._cache_keys (f d) = Some (None, ca)) →
  identifier_free self → identifier_free (store info f self).1.
Proof.
  intros Hf [Hint Hid]. unfold store, bind, load, modify.
  destruct (records self !! info) as [d|] eqn:Hd; simpl; [|by split].
  split; simpl; [done|]. intros l d' keys Hl Hk.
  destruct (decide (l = info)) as [->|Hne].
  - rewrite list_lookup_insert_eq in Hl by (by eapply lookup_lt_Some).
    injection Hl as <-. destruct (Hf d) as [Heq|[ca Heq]]; rewrite Heq in Hk.
    + by eapply Hid.
    + by injection Hk as <-.
  - rewrite list_lookup_insert_ne in Hl by done. by eapply Hid.
Qed.

Lemma identifier_free_cache_set self key info :
  (∀ n, key ≠ PyInt n) →
  identifier_free self → identifier_free (cache_set key info self).1.
Proof.
  intros Hkey [Hint Hid]. split; simpl; [|done].
  intros n. rewrite lookup_insert_ne by apply Hkey. apply Hint.
Qed.

Lemma identifier_free_cache_del self key :
  identifier_free self → identifier_free (cache_del key self).1.
Proof.
  intros [Hint Hid]. unfold cache_del.
  destruct (cache self !! key) as [found|]; [|by split]. split; simpl; [|done].
  intros n. apply lookup_delete_None. right. apply Hint.
Qed.

Lemma addr_key_not_int a n : addr_key a ≠ PyInt n.
Proof. by destruct a. Qed.

Lemma identifier_free_get key self :
  identifier_free self → identifier_free (get_device_info key self).1.
Proof.
  intros HJ. destruct key as [n|a| |s]; [exact HJ| |exact HJ|exact HJ].
  unfold get_device_info. destruct (is_station a); [|exact HJ].
  unfold bind, cache_get, gets. destruct (cache self !! PyAddr a) as [found|]; [exact HJ|].
  destruct HJ as [Hint Hid]. split; simpl.
  - intros n. rewrite lookup_insert_ne by done. apply Hint.
  - intros l d keys Hl Hk. apply lookup_app_Some in Hl as [Hl|[_ Hl]].
    + by eapply Hid.
    + apply list_lookup_singleton_Some in Hl as [_ <-]. by injection Hk as <-.
Qed.

Lemma identifier_free_update info self :
  identifier_free self → identifier_free (update_device_info info self).1.
Proof.
  intros HJ. unfold update_device_info.
  apply bind_fst; unfold load; intros s' r Hload;
    destruct (records self !! info) as [d|] eqn:Hd; simplify_eq; try done.
  destruct (DeviceInfo._cache_keys r) as [[cache_id cache_address]|] eqn:Hk; [|done].
  assert (cache_id = None) as -> by (by destruct HJ as [_ Hid]; apply (Hid info r _ Hd Hk)).
  apply bind_fst; [by intros ?? [= <- _]|]. intros s1 cid [= <- <-].
  apply bind_fst.
  - intros s2 e. destruct cache_address as [a|]; [|done].
    case_bool_decide; [|done].
    unfold bind. destruct (cache_del (PyAddr a) s') as [s3 [[]|e']] eqn:Hdel.
    + done.
    + intros [= <- _]. replace s3 with (cache_del (PyAddr a) s').1 by (by rewrite Hdel).
      by apply identifier_free_cache_del.
  - intros s2 ca Hstep.
    assert (HJ2 : identifier_free s2).
    { destruct cache_address as [a|]; [|by injection Hstep as <- _].
      case_bool_decide; [|by injection Hstep as <- _].
      unfold bind in Hstep.
      destruct (cache_del (PyAddr a) s') as [s3 [[]|e']] eqn:Hdel; [|done].
      simpl in Hstep. injection Hstep as <- _.
      apply (identifier_free_cache_set _ _ _ (addr_key_not_int _)).
      replace s3 with (cache_del (PyAddr a) s').1 by (by rewrite Hdel).
      by apply identifier_free_cache_del. }
    apply identifier_free_store; [|done]. intros d'. right. by eexists.
Qed.

Lemma identifier_free_release info self :
  identifier_free self → identifier_free (release_device_info info self).1.
Proof.
  intros HJ. unfold release_device_info.
  apply bind_fst; unfold load; intros s' r Hload;
    destruct (records self !! info) as [d|] eqn:Hd; simplify_eq; try done.
  destruct (DeviceInfo._cache_keys r) as [[cache_id cache_address]|]; [|done].
  assert (Hfirst : ∀ s2 out,
            match cache_id with Some i => cache_del (PyInt i) | None => ret tt end s'
              = (s2, out) → identifier_free s2).
  { intros s2 out Hs. destruct cache_id as [i|]; [|by injection Hs as <- _].
    replace s2 with (cache_del (PyInt i) s').1 by (by rewrite Hs).
    by apply identifier_free_cache_del. }
  apply bind_fst.
  - intros s2 e Hs. exact (Hfirst _ _ Hs).
  - intros s2 [] Hs. pose proof (Hfirst _ _ Hs).
    destruct cache_address; [by apply identifier_free_cache_del|done].
Qed.

Lemma identifier_free_add apdu self :
  identifier_free self → identifier_free (add_device_info apdu self).1.
Proof.
  intros HJ. unfold add_device_info.
  rewrite (bind_eq _ _ _ _ _ (get_device_info_int _ _)).
  rewrite (no_int_key _ HJ).
  pose proof (identifier_free_get (PyAddr (IAmRequest.pduSource apdu)) self HJ) as HJ1.
  apply bind_fst; [by intros s1 e Hs; rewrite Hs in HJ1|].
  intros s1 created Hs. rewrite Hs in HJ1. simpl in HJ1.
  destruct created as [info|]; [|done].
  assert (Hstep : ∀ f s (k : unit → M unit),
            (∀ d, DeviceInfo._cache_keys (f d) = DeviceInfo._cache_keys d) →
            identifier_free s →
            (∀ s', identifier_free s' → identifier_free (k tt s').1) →
            identifier_free (bind (store info f) k s).1).
  { intros f s k Hf Hs' Hk.
    pose proof (identifier_free_store s info f (λ d, or_introl (Hf d)) Hs') as HJs.
    apply bind_fst.
    - intros s2 e Heq. by rewrite Heq in HJs.
    - intros s2 [] Heq. rewrite Heq in HJs. by apply Hk. }
  apply Hstep; [done|done|]. intros s2 HJ2.
  apply Hstep; [done|done|]. intros s3 HJ3.
  apply Hstep; [done|done|]. intros s4 HJ4.
  apply Hstep; [done|done|]. intros s5 HJ5.
  by apply identifier_free_update.
Qed.

Lemma cache_run_identifier_free calls : identifier_free (cache_run calls).
Proof.
  induction calls as [|c calls IH] using rev_ind.
  - split; [intros n; apply lookup_empty|by intros [|?] ???].
  - unfold cache_run in *. rewrite foldl_app. simpl.
    destruct c; simpl.
    + by apply identifier_free_get.
    + by apply identifier_free_add.
    + by apply identifier_free_update.
    + by apply identifier_free_release.
    + apply identifier_free_store; [|done]. by left.
    + apply identifier_free_store; [|done]. by left.
Qed.

(** X1: whatever a client does with the cache, starting from the empty one, no
    lookup by identifier ever finds a record: the index never gets an integer
    key, because every record starts with a null identifier key and
    reindexing keeps a null key null. *)
Lemma identifier_lookup_never_finds (calls : list CacheCall) (n : Z) :
  get_device_info (PyInt n) (cache_run calls) = (cache_run calls, Return None).
Proof.
  cbn. unfold cache_get, gets. by rewrite (no_int_key _ (cache_run_identifier_free calls)).
Qed.

(** *** Announcements *)

(** C1 (what the code does): two announcements of the same device identifier
    from two different station addresses, ingested into an empty cache, leave
    two records behind, one per address.  Looking the identifier up finds no
    record, the first address still finds the first record, whose address is
    unchanged, and the second address finds a second record. *)
Theorem add_device_info_readdressed (r1 r2 : IAmRequest.t) :
  (IAmRequest.iAmDeviceIdentifier r1).2 = (IAmRequest.iAmDeviceIdentifier r2).2 →
  IAmRequest.pduSource r1 ≠ IAmRequest.pduSource r2 →
  is_station (IAmRequest.pduSource r1) = true →
  is_station (IAmRequest.pduSource r2) = true →
  ∃ self,
    (add_device_info r1 ;;; add_device_info r2) __init__ = (self, Return tt) ∧
    records self = [announced r1; announced r2] ∧
    get_device_info (PyInt (IAmRequest.iAmDeviceIdentifier r2).2) self
      = (self, Return None) ∧
    get_device_info (PyAddr (IAmRequest.pduSource r1)) self
      = (self, Return (Some 0%nat)) ∧
    get_device_info (PyAddr (IAmRequest.pduSource r2)) self
      = (self, Return (Some 1%nat)).
Proof.
  intros Hid Hne H1 H2. eexists. split; [|split; [|split; [|split]]].
  - erewrite bind_eq; [|by apply add_device_info_fresh].
    apply add_device_info_fresh; simpl; rewrite <- ?Hid; [done| |done].
    rewrite lookup_insert_ne by congruence. done.
  - done.
  - rewrite get_device_info_int. simpl. f_equal. f_equal.
    rewrite !lookup_insert_ne by done. done.
  - apply get_device_info_hit; [done|]. simpl.
    rewrite lookup_insert_ne by congruence. by rewrite lookup_insert_eq.
  - apply get_device_info_hit; [done|]. simpl. by rewrite lookup_insert_eq.
Qed.

Lemma add_device_info_readdressed_witness :
  ∃ self,
    (add_device_info (i_am station1) ;;; add_device_info (i_am station2)) __init__
      = (self, Return tt) ∧
    records self = [announced (i_am station1); announced (i_am station2)] ∧
    get_device_info (PyInt 7) self = (self, Return None) ∧
    get_device_info (PyAddr station1) self = (self, Return (Some 0%nat)) ∧
    get_device_info (PyAddr station2) self = (self, Return (Some 1%nat)).
Proof.
  apply (add_device_info_readdressed (i_am station1) (i_am station2));
    [reflexivity|discriminate|reflexivity|reflexivity].
Defined.

(** C2 (what the code does): when the stored identifier key of a record is
    null and its identifier field is not, reindexing leaves the cache as it
    was: no entry is added under the identifier and the stored keys are not
    brought up to the record's identifier and address. *)
Theorem update_device_info_null_identifier_key
    (self : DeviceInfoCache.t) (info : ref) (d : DeviceInfo.t) (i : Z) :
  records self !! info = Some d →
  DeviceInfo._cache_keys d = Some (None, DeviceInfo.address d) →
  DeviceInfo.deviceIdentifier d = Some i →
  update_device_info info self = (self, Return tt) ∧
  cache (update_device_info info self).1 !! PyInt i = cache self !! PyInt i ∧
  (DeviceInfo._cache_keys <$> records (update_device_info info self).1 !! info)
    ≠ Some (Some (DeviceInfo.deviceIdentifier d, DeviceInfo.address d)).
Proof.
  intros Hd Hk Hi.
  assert (Hu : update_device_info info self = (self, Return tt))
    by (by eapply update_device_info_null_id).
  rewrite Hu. simpl. split; [done|split; [done|]].
  rewrite Hd. simpl. rewrite Hk, Hi. congruence.
Qed.

Lemma update_device_info_null_identifier_key_witness :
  update_device_info 0%nat one_device = (one_device, Return tt) ∧
  cache (update_device_info 0%nat one_device).1 !! PyInt 7 = cache one_device !! PyInt 7 ∧
  (DeviceInfo._cache_keys <$> records (update_device_info 0%nat one_device).1 !! 0%nat)
    ≠ Some (Some (Some 7, Some station1)).
Proof.
  apply (update_device_info_null_identifier_key one_device 0%nat
           (announced (i_am station1)) 7); reflexivity.
Defined.

(** The other half of the same reindexing step: an identifier field that
    became null while its stored key was not is entered under the key
    [None]. *)
Lemma update_device_info_null_field :
  let self := DeviceInfoCache.mk
                [DeviceInfo.mk None (Some station1) 1024 "noSegmentation" None 1497 None
                   (Some (Some 7, Some station1))]
                (<[PyInt 7 := 0%nat]> (<[PyAddr station1 := 0%nat]> ∅)) in
  (update_device_info 0%nat self).2 = Return tt ∧
  has_device_info PyNone (update_device_info 0%nat self).1 = true ∧
  has_device_info (PyInt 7) (update_device_info 0%nat self).1 = false.
Proof. vm_compute. done. Qed.

(** C5: [get_device_info] by key.  An integer key returns what the index
    holds, possibly nothing, and leaves the cache as it is.  A local or remote
    station address returns the record indexed under it; when there is none,
    one blank record is appended to the store with its address set and the
    keys (none, address), it is indexed under the address and returned, and
    asking again returns that same record without creating another.  Every
    other key raises TypeError and leaves the cache as it is. *)
Theorem get_device_info_cases (self : DeviceInfoCache.t) (key : PyKey) :
  match key with
  | PyInt _ => get_device_info key self = (self, Return (cache self !! key))
  | PyAddr a =>
      if is_station a then
        match cache self !! key with
        | Some info => get_device_info key self = (self, Return (Some info))
        | None =>
            ∃ self',
              get_device_info key self = (self', Return (Some (length (records self)))) ∧
              records self !! length (records self) = None ∧
              records self' = records self ++
                [DeviceInfo.mk None (Some a) 1024 "noSegmentation" None 1497 None
                   (Some (None, Some a))] ∧
              cache self' = <[key := length (records self)]> (cache self) ∧
              get_device_info key self' = (self', Return (Some (length (records self))))
        end
      else
        ∃ msg, get_device_info key self = (self, Raise (TypeError msg))
  | _ => ∃ msg, get_device_info key self = (self, Raise (TypeError msg))
  end.
Proof.
  destruct key as [n|a| |s]; [done| |by eexists|by eexists].
  destruct (is_station a) eqn:Hst; [|unfold get_device_info; rewrite Hst; by eexists].
  destruct (cache self !! PyAddr a) as [info|] eqn:Hc.
  - by apply get_device_info_hit.
  - eexists. split; [by apply get_device_info_miss|].
    split; [by apply lookup_ge_None_2|]. split; [done|]. split; [done|].
    apply get_device_info_hit; [done|]. simpl. by rewrite lookup_insert_eq.
Qed.

(** After the only record of a cache, indexed under [station1], is released,
    looking that address up misses and so creates and returns a second
    record. *)
Lemma release_then_get_address_creates :
  let self := (get_device_info (PyAddr station1) __init__).1 in
  let self' := (release_device_info 0%nat self).1 in
  get_device_info (PyAddr station1) self = (self, Return (Some 0%nat)) ∧
  (release_device_info 0%nat self).2 = Return tt ∧
  (get_device_info (PyAddr station1) self').2 = Return (Some 1%nat) ∧
  (get_device_info (PyAddr station1) self').2 ≠ Return None ∧
  length (records (get_device_info (PyAddr station1) self').1) = 2%nat.
Proof. vm_compute. repeat split; discriminate. Qed.

(** Release in any cache, hand-built ones included: for a record that the
    cache indexes under its stored keys and under no other key, release
    removes those entries and returns normally; afterwards neither key is in
    the index and no lookup of any key returns the released record. *)
Lemma release_device_info_unreachable
    (self : DeviceInfoCache.t) (info : ref) (d : DeviceInfo.t)
    (cache_id : option Z) (cache_address : option Address) :
  records self !! info = Some d →
  DeviceInfo._cache_keys d = Some (cache_id, cache_address) →
  (∀ i, cache_id = Some i → cache self !! PyInt i = Some info) →
  (∀ a, cache_address = Some a → cache self !! PyAddr a = Some info) →
  (∀ key, cache self !! key = Some info →
     (∃ i, cache_id = Some i ∧ key = PyInt i) ∨
     (∃ a, cache_address = Some a ∧ key = PyAddr a)) →
  ∃ self',
    release_device_info info self = (self', Return tt) ∧
    records self' = records self ∧
    (∀ i, cache_id = Some i →
       has_device_info (PyInt i) self' = false ∧
       get_device_info (PyInt i) self' = (self', Return None)) ∧
    (∀ a, cache_address = Some a →
       has_device_info (PyAddr a) self' = false ∧
       (is_station a = true →
        ∃ self'', get_device_info (PyAddr a) self' =
                    (self'', Return (Some (length (records self)))) ∧
                  length (records self) ≠ info)) ∧
    (∀ key self'' found,
       get_device_info key self' = (self'', Return (Some found)) → found ≠ info).
Proof.
  intros Hd Hk Hid Haddr Honly.
  assert (Hlt : (info < length (records self))%nat) by (by eapply lookup_lt_Some).
  set (c1 := match cache_id with
             | Some i => delete (PyInt i) (cache self)
             | None => cache self
             end).
  set (c2 := match cache_address with
             | Some a => delete (PyAddr a) c1
             | None => c1
             end).
  assert (Hrel : release_device_info info self = (mk (records self) c2, Return tt)).
  { unfold release_device_info.
    rewrite (bind_eq _ _ _ _ _ (load_eq _ _ _ Hd)), Hk.
    assert (Hfirst : match cache_id with
                     | Some i => cache_del (PyInt i)
                     | None => ret tt
                     end self = (mk (records self) c1, Return tt)).
    { subst c1. destruct cache_id as [i|]; [|by destruct self].
      by eapply cache_del_eq, Hid. }
    rewrite (bind_eq _ _ _ _ _ Hfirst).
    subst c2. destruct cache_address as [a|]; [|done].
    apply (cache_del_eq (mk (records self) c1) (PyAddr a) info). simpl.
    subst c1. destruct cache_id; [rewrite lookup_delete_ne by done|]; by apply Haddr. }
  assert (Hgone : ∀ key, c2 !! key ≠ Some info).
  { intros key Hkey.
    assert (Hin : cache self !! key = Some info).
    { subst c2 c1. destruct cache_address, cache_id;
        repeat (apply lookup_delete_Some in Hkey as [_ Hkey]); done. }
    destruct (Honly key Hin) as [(i & -> & ->)|(a & -> & ->)].
    - subst c2 c1. destruct cache_address.
      + rewrite lookup_delete_ne in Hkey by done. by rewrite lookup_delete_eq in Hkey.
      + by rewrite lookup_delete_eq in Hkey.
    - subst c2. by rewrite lookup_delete_eq in Hkey. }
  assert (Hnoid : ∀ i, cache_id = Some i → c2 !! PyInt i = None).
  { intros i ->. subst c2 c1. destruct cache_address.
    - rewrite lookup_delete_ne by done. by rewrite lookup_delete_eq.
    - by rewrite lookup_delete_eq. }
  assert (Hnoaddr : ∀ a, cache_address = Some a → c2 !! PyAddr a = None).
  { intros a ->. subst c2. by rewrite lookup_delete_eq. }
  eexists. split; [exact Hrel|]. split; [done|]. split; [|split].
  - intros i Hi. split.
    + unfold has_device_info. simpl. rewrite (Hnoid i Hi).
      apply bool_decide_eq_false_2. by intros [? ?].
    + rewrite get_device_info_int. simpl. by rewrite (Hnoid i Hi).
  - intros a Ha. split.
    + unfold has_device_info. simpl. rewrite (Hnoaddr a Ha).
      apply bool_decide_eq_false_2. by intros [? ?].
    + intros Hst. eexists. split; [|lia].
      rewrite get_device_info_miss; [done|done|]. simpl. by apply Hnoaddr.
  - intros key self'' found Hget ->.
    destruct key as [n|a| |s]; try (simpl in Hget; unfold raise in Hget; congruence).
    + rewrite get_device_info_int in Hget. simpl in Hget.
      injection Hget as _ Hc. by apply (Hgone (PyInt n)).
    + destruct (is_station a) eqn:Hst;
        [|unfold get_device_info in Hget; rewrite Hst in Hget;
          unfold raise in Hget; congruence].
      destruct (c2 !! PyAddr a) as [l|] eqn:Hc.
      * rewrite (get_device_info_hit a _ l Hst) in Hget by done.
        injection Hget as _ ->. by apply (Hgone (PyAddr a)).
      * rewrite (get_device_info_miss a _ Hst) in Hget by done. simpl in Hget.
        injection Hget as _ Hlen. lia.
Qed.

Lemma release_device_info_unreachable_witness :
  ∃ self',
    release_device_info 0%nat one_device = (self', Return tt) ∧
    records self' = records one_device ∧
    (∀ i, None = Some i →
       has_device_info (PyInt i) self' = false ∧
       get_device_info (PyInt i) self' = (self', Return None)) ∧
    (∀ a, Some station1 = Some a →
       has_device_info (PyAddr a) self' = false ∧
       (is_station a = true →
        ∃ self'', get_device_info (PyAddr a) self' =
                    (self'', Return (Some (length (records one_device)))) ∧
                  length (records one_device) ≠ 0%nat)) ∧
    (∀ key self'' found,
       get_device_info key self' = (self'', Return (Some found)) → found ≠ 0%nat).
Proof.
  apply (release_device_info_unreachable one_device 0%nat
           (announced (i_am station1)) None (Some station1)).
  - reflexivity.
  - reflexivity.
  - discriminate.
  - intros a [= <-]. reflexivity.
  - intros key Hkey. right. exists station1. split; [reflexivity|].
    destruct (decide (key = PyAddr station1)) as [->|Hne]; [reflexivity|].
    unfold one_device in Hkey; simpl in Hkey.
    rewrite lookup_insert_ne in Hkey by done. by rewrite lookup_empty in Hkey.
Defined.

End DeviceInfoCacheFacts.

(** ** The queueing controller *)

Module ControllerFacts.
Import ApplicationController.

Lemma run_snoc a ops op : run a (ops ++ [op]) = step (run a ops) op.
Proof. unfold run. by rewrite foldl_app. Qed.

Lemma submitted_snoc ops op :
  submitted (ops ++ [op]) =
    submitted ops ++ match op with Submit iocb => [iocb] | Resolve _ => [] end.
Proof. unfold submitted. rewrite omap_app. by destruct op. Qed.

Lemma serialized_step ops r op :
  serialized ops r → serialized (ops ++ [op]) (step r op).
Proof.
  intros [Ho Hs Hi]. destruct r as [[a act q] snt res]. simpl in *.
  destruct op as [iocb|outcome], act as [cur|];
    try (specialize (Hi eq_refl); subst q);
    try destruct q as [|next rest];
    (split; simpl in *;
     [rewrite submitted_snoc, fmap_app, Ho; simpl;
      rewrite ?fmap_app, ?app_nil_r, <- ?app_assoc; done
     |rewrite ?Hs, ?fmap_app; simpl; rewrite ?app_nil_r, <- ?app_assoc; done
     |done]).
Qed.

Lemma run_serialized a ops : serialized ops (run a ops).
Proof.
  induction ops as [|op ops IH] using rev_ind.
  - by split.
  - rewrite run_snoc. by apply serialized_step.
Qed.

(** C4: after any sequence of submit and resolve calls on the controller of a
    destination, the requests handed to the send callback are an initial part
    of the submitted requests, in submission order, and the queue holds the
    rest in order; every request sent has been resolved except the active
    one, so at most one request is in flight and the send of the next request
    comes only after the one before it was resolved. *)
Theorem controller_one_in_flight_in_order (a : Address) (ops : list Op) :
  IOCB.args <$> submitted ops =
    sent (run a ops) ++ (IOCB.args <$> ioQueue (ctl (run a ops))) ∧
  sent (run a ops) =
    (IOCB.args <$> resolved (run a ops))
      ++ (IOCB.args <$> option_list (active_iocb (ctl (run a ops)))) ∧
  in_flight (run a ops) = IOCB.args <$> option_list (active_iocb (ctl (run a ops))) ∧
  (length (in_flight (run a ops)) ≤ 1)%nat ∧
  (length (sent (run a ops)) ≤ S (length (resolved (run a ops))))%nat.
Proof.
  destruct (run_serialized a ops) as [Ho Hs Hi].
  assert (Hfl : in_flight (run a ops)
                = IOCB.args <$> option_list (active_iocb (ctl (run a ops)))).
  { unfold in_flight. rewrite Hs at 1. rewrite drop_app_length'.
    - reflexivity.
    - symmetry. apply length_fmap. }
  split; [done|]. split; [done|]. split; [done|].
  split.
  - rewrite Hfl. destruct (active_iocb _); simpl; lia.
  - rewrite Hs, length_app, !length_fmap. destruct (active_iocb _); simpl; lia.
Qed.

(** Three reads submitted in a row: only the first is sent; resolving it sends
    the second, and a submission in between does not overtake. *)
Example three_submissions :
  sent (run station2 [Submit (IOCB.__init__ read1); Submit (IOCB.__init__ read2)])
    = [read1] ∧
  sent (run station2 [Submit (IOCB.__init__ read1); Submit (IOCB.__init__ read2);
                      Resolve (IOCB.Completed ack1); Submit (IOCB.__init__ read1)])
    = [read1; read2].
Proof. by vm_compute. Qed.

End ControllerFacts.

(** ** Application *)

Module ApplicationFacts.
Import Application.

(** A confirmed request is wrapped in a pending request and submitted to the
    controller registered for its destination, or to a new one. *)
Lemma request_confirmed_submits (apdu : APDU) (self : t) :
  pdu_type apdu = ConfirmedRequestPDU →
  request apdu self =
    (let controller :=
       default (ApplicationController.__init__ (pduDestination apdu))
               (controllers self !! pduDestination apdu) in
     let submit := ApplicationController.request_io (IOCB.__init__ apdu) controller in
     set_downstream (downstream self ++ (Request <$> submit.2))
       (set_controllers (<[pduDestination apdu := submit.1]> (controllers self)) self),
     Return (Some (IOCB.__init__ apdu))).
Proof.
  intros H. unfold request. rewrite H.
  erewrite bind_eq; [|reflexivity].
  destruct (controllers self !! pduDestination apdu) as [c|]; simpl; [|done].
  by destruct (ApplicationController.request_io (IOCB.__init__ apdu) c).
Qed.

(** C9: an unconfirmed request is handed to the layer below as it is, no
    pending request is returned, and the registry of controllers is left
    unchanged. *)
Theorem request_unconfirmed_passes_down (apdu : APDU) (self : t) :
  pdu_type apdu = UnconfirmedRequestPDU →
  request apdu self =
    (set_downstream (downstream self ++ [Request apdu]) self, Return None) ∧
  controllers (request apdu self).1 = controllers self.
Proof. intros H. unfold request. rewrite H. done. Qed.

Lemma request_unconfirmed_passes_down_witness :
  request who_is bare_app =
    (set_downstream (downstream bare_app ++ [Request who_is]) bare_app, Return None) ∧
  controllers (request who_is bare_app).1 = controllers bare_app.
Proof. apply (request_unconfirmed_passes_down who_is bare_app). reflexivity. Defined.

(** C8: with no helper registered for the service of a message, [indication]
    raises UnrecognizedService for a confirmed request; for any other message
    it returns normally and leaves the application, and so what was sent, as
    it was. *)
Theorem indication_without_helper
    (helpers : string → option Helper) (apdu : APDU) (self : t) :
  helpers ("do_" +:+ class_name apdu) = None →
  (pdu_type apdu = ConfirmedRequestPDU →
     indication helpers apdu self =
       (self, Raise (UnrecognizedService ("no function do_" +:+ class_name apdu)))) ∧
  (pdu_type apdu ≠ ConfirmedRequestPDU →
     indication helpers apdu self = (self, Return tt)).
Proof.
  intros H. unfold indication, is_confirmed_request. rewrite H.
  split; intros Ht; [by rewrite Ht|by destruct (pdu_type apdu)].
Qed.

Lemma indication_without_helper_witness :
  indication (λ _, None) read1 bare_app =
    (bare_app, Raise (UnrecognizedService "no function do_ReadPropertyRequest")) ∧
  indication (λ _, None) cov bare_app = (bare_app, Return tt).
Proof.
  split.
  - apply (indication_without_helper (λ _, None) read1 bare_app); reflexivity.
  - apply (indication_without_helper (λ _, None) cov bare_app);
      [reflexivity|discriminate].
Defined.

(** C7: when the helper registered for a message raises, a reject or abort
    exception leaves [indication] unchanged; an execution error on a confirmed
    request adds exactly one Error response with its class and code and the
    request as context to what the helper had sent, and any other exception
    adds exactly one Error response (device, operationalProblem); on a message
    that is not a confirmed request neither adds anything. *)
Theorem indication_helper_raises
    (helpers : string → option Helper) (apdu : APDU) (self self' : t)
    (helperFn : Helper) (err : HelperExn) :
  helpers ("do_" +:+ class_name apdu) = Some helperFn →
  helperFn apdu self = (self', Some err) →
  match err with
  | RejectException _ | AbortException _ =>
      indication helpers apdu self = (self', Raise (Reraised err))
  | ExecutionError errorClass errorCode =>
      (pdu_type apdu = ConfirmedRequestPDU →
         indication helpers apdu self =
           (set_downstream
              (downstream self' ++ [Response (mkError errorClass errorCode apdu)]) self',
            Return tt)) ∧
      (pdu_type apdu ≠ ConfirmedRequestPDU →
         indication helpers apdu self = (self', Return tt))
  | OtherException _ =>
      (pdu_type apdu = ConfirmedRequestPDU →
         indication helpers apdu self =
           (set_downstream
              (downstream self' ++ [Response (mkError "device" "operationalProblem" apdu)])
              self',
            Return tt)) ∧
      (pdu_type apdu ≠ ConfirmedRequestPDU →
         indication helpers apdu self = (self', Return tt))
  end.
Proof.
  intros Hh Hf. unfold indication, is_confirmed_request. rewrite Hh, Hf.
  destruct err; try done;
    (split; intros Ht; [by rewrite Ht|by destruct (pdu_type apdu)]).
Qed.

Lemma indication_helper_raises_witness :
  indication (failing_helpers (ExecutionError "object" "unknownObject")) read1 bare_app =
    (set_downstream [Response (mkError "object" "unknownObject" read1)] bare_app,
     Return tt) ∧
  indication (failing_helpers (OtherException "KeyError")) read1 bare_app =
    (set_downstream [Response (mkError "device" "operationalProblem" read1)] bare_app,
     Return tt) ∧
  indication (failing_helpers (RejectException "missingRequiredParameter")) read1 bare_app =
    (bare_app, Raise (Reraised (RejectException "missingRequiredParameter"))).
Proof.
  split; [|split].
  - apply (indication_helper_raises
             (failing_helpers (ExecutionError "object" "unknownObject"))
             read1 bare_app bare_app (λ _ self, (self, Some (ExecutionError "object" "unknownObject")))
             (ExecutionError "object" "unknownObject")); reflexivity.
  - apply (indication_helper_raises
             (failing_helpers (OtherException "KeyError"))
             read1 bare_app bare_app (λ _ self, (self, Some (OtherException "KeyError")))
             (OtherException "KeyError")); reflexivity.
  - apply (indication_helper_raises
             (failing_helpers (RejectException "missingRequiredParameter"))
             read1 bare_app bare_app
             (λ _ self, (self, Some (RejectException "missingRequiredParameter")))
             (RejectException "missingRequiredParameter")); reflexivity.
Defined.

(** C10: in an application that has no [localDevice] attribute, adding an
    object with a name, an identifier below the maximum instance number, and
    neither of them registered yet, enters the object in the name index and in
    the identifier index and then raises AttributeError; both entries stay. *)
Theorem add_object_without_local_device
    (maximum_instance_number : Z) (self : t) (obj : ref) (o : LocalObject.t)
    (object_identifier : string * Z) :
  localDevice self = None →
  objects self !! obj = Some o →
  LocalObject.objectName o ≠ "" →
  LocalObject.objectIdentifier o = Some object_identifier →
  object_identifier.2 < maximum_instance_number →
  objectName self !! LocalObject.objectName o = None →
  objectIdentifier self !! Some object_identifier = None →
  ∃ self',
    add_object maximum_instance_number obj self =
      (self', Raise (AttributeError "localDevice")) ∧
    objectName self' = <[LocalObject.objectName o := obj]> (objectName self) ∧
    objectIdentifier self' = <[Some object_identifier := obj]> (objectIdentifier self) ∧
    get_object_name (LocalObject.objectName o) self' = Some obj ∧
    get_object_id (Some object_identifier) self' = Some obj ∧
    objects self' = objects self.
Proof.
  intros Hdev Hobj Hname Hid Hmax Hfree1 Hfree2. eexists.
  split.
  - unfold add_object.
    erewrite bind_eq; [|unfold load; by rewrite Hobj].
    rewrite bool_decide_eq_false_2 by done. rewrite Hid.
    rewrite bool_decide_eq_false_2 by lia.
    erewrite bind_eq; [|reflexivity].
    rewrite Hfree1. rewrite bool_decide_eq_false_2 by (by intros [? ?]).
    erewrite bind_eq; [|reflexivity].
    rewrite Hfree2. rewrite bool_decide_eq_false_2 by (by intros [? ?]).
    unfold bind, modify, gets. simpl. rewrite Hdev. reflexivity.
  - simpl. unfold get_object_name, get_object_id. simpl.
    by rewrite !lookup_insert_eq.
Qed.

(** Constructing the application without a local device leaves the attribute
    unset and both indexes empty. *)
Lemma init_without_local_device objs deviceInfoCache :
  ∃ self, __init__ objs None deviceInfoCache = Return self ∧
          localDevice self = None ∧ objects self = objs ∧
          objectName self = ∅ ∧ objectIdentifier self = ∅.
Proof. by eexists. Qed.

Lemma add_object_without_local_device_witness :
  __init__ [analog_value] None None = Return bare_app ∧
  ∃ self',
    add_object 4194303 0%nat bare_app = (self', Raise (AttributeError "localDevice")) ∧
    objectName self' = <["AV1" := 0%nat]> (objectName bare_app) ∧
    objectIdentifier self' =
      <[Some ("analogValue", 1) := 0%nat]> (objectIdentifier bare_app) ∧
    get_object_name "AV1" self' = Some 0%nat ∧
    get_object_id (Some ("analogValue", 1)) self' = Some 0%nat ∧
    objects self' = objects bare_app.
Proof.
  split; [reflexivity|].
  apply (add_object_without_local_device 4194303 bare_app 0%nat analog_value
           ("analogValue", 1));
    [reflexivity|reflexivity|discriminate|reflexivity|reflexivity|reflexivity|reflexivity].
Defined.

(** With a resolve that promotes inside the call, as [ApplicationController.resolve]
    does: one read active and one queued for [station2], the confirmation of
    the first resolves it and promotes the second, which is then active with
    the queue empty, and the controller is removed from the registry. *)
Lemma confirmation_removes_controller_with_active_request :
  ∃ controller controller' done sends,
    controllers two_reads !! pduSource ack1 = Some controller ∧
    ApplicationController.complete_io
      (ApplicationController.active_iocb controller) ack1 controller
      = (controller', done, sends) ∧
    ApplicationController.active_iocb controller' = Some (IOCB.__init__ read2) ∧
    ApplicationController.ioQueue controller' = [] ∧
    sends = [read2] ∧
    (confirmation ack1 two_reads).2 = Return tt ∧
    controllers (confirmation ack1 two_reads).1 !! pduSource ack1 = None ∧
    ¬ (controllers (confirmation ack1 two_reads).1 !! pduSource ack1 = None
       ↔ ApplicationController.ioQueue controller' = []
         ∧ ApplicationController.active_iocb controller' = None).
Proof.
  eexists _, _, _, _. split; [by vm_compute|]. split; [by vm_compute|].
  split; [done|]. split; [done|]. split; [done|].
  split; [by vm_compute|].
  assert (Hgone : controllers (confirmation ack1 two_reads).1 !! pduSource ack1 = None)
    by (by vm_compute).
  split; [exact Hgone|].
  intros [Himp _]. destruct (Himp Hgone) as [_ Hact]. discriminate Hact.
Qed.

(** What follows from that removal: the confirmation of the second read finds
    no controller and is dropped, so the second read is never resolved, and a
    third read for the same destination is sent at once. *)
Example confirmation_after_removal_is_dropped :
  let self := (confirmation ack1 two_reads).1 in
  confirmation ack2 self = (self, Return tt) ∧
  completed self = [IOCB.mk read1 (IOCB.Completed ack1)] ∧
  downstream (request read3 self).1 = [Request read1; Request read2; Request read3].
Proof. by vm_compute. Qed.

End ApplicationFacts.

(** * More of the code *)

(** ** DeviceInfoCache: reindexing, release and announcements *)

Module DeviceInfoCacheMore.
Import DeviceInfoCache DeviceInfoCacheFacts.

Lemma update_device_info_address_step self info d cache_id cache_address :
  records self !! info = Some d →
  DeviceInfo._cache_keys d = Some (cache_id, cache_address) →
  cache_id = None ∨ DeviceInfo.deviceIdentifier d = cache_id →
  update_device_info info self =
    match cache_address with
    | Some a =>
        if bool_decide (DeviceInfo.address d ≠ Some a) then
          match cache self !! PyAddr a with
          | Some _ =>
              (mk (<[info := DeviceInfo.set_cache_keys (cache_id, DeviceInfo.address d) d]>
                     (records self))
                  (<[addr_key (DeviceInfo.address d) := info]>
                     (delete (PyAddr a) (cache self))),
               Return tt)
          | None => (self, Raise KeyError)
          end
        else (self, Return tt)
    | None => (self, Return tt)
    end.
Proof.
  intros Hd Hk Hskip. unfold update_device_info.
  rewrite (bind_eq _ _ _ _ _ (load_eq _ _ _ Hd)), Hk.
  assert (Hfirst :
    match cache_id with
    | Some i =>
        if bool_decide (DeviceInfo.deviceIdentifier d ≠ Some i)
        then cache_del (PyInt i);;;
             cache_set (id_key (DeviceInfo.deviceIdentifier d)) info;;;
             ret (DeviceInfo.deviceIdentifier d)
        else ret cache_id
    | None => ret cache_id
    end self = (self, Return cache_id)).
  { destruct cache_id as [i|]; [|done].
    destruct Hskip as [?|Hsame]; [done|].
    by rewrite bool_decide_eq_false_2 by (rewrite Hsame; naive_solver). }
  rewrite (bind_eq _ _ _ _ _ Hfirst).
  assert (Hsame : <[info := DeviceInfo.set_cache_keys (cache_id, cache_address) d]>
                    (records self) = records self).
  { apply list_insert_id. rewrite Hd. f_equal.
    destruct d; unfold DeviceInfo.set_cache_keys; simpl in *. congruence. }
  destruct cache_address as [a|].
  - case_bool_decide as Hne.
    + unfold bind at 1. unfold bind at 1. unfold cache_del.
      destruct (cache self !! PyAddr a) as [x|]; [|done]. simpl.
      unfold bind. simpl. by rewrite (store_eq _ _ d) by done.
    + unfold bind at 1. simpl.
      rewrite (store_eq _ _ _ _ Hd), Hsame. by destruct self.
  - unfold bind at 1. simpl.
    rewrite (store_eq _ _ _ _ Hd), Hsame. by destruct self.
Qed.

Lemma release_device_info_address_only self info d cache_address :
  records self !! info = Some d →
  DeviceInfo._cache_keys d = Some (None, cache_address) →
  release_device_info info self =
    match cache_address with
    | Some a =>
        match cache self !! PyAddr a with
        | Some _ => (mk (records self) (delete (PyAddr a) (cache self)), Return tt)
        | None => (self, Raise KeyError)
        end
    | None => (self, Return tt)
    end.
Proof.
  intros Hd Hk. unfold release_device_info.
  rewrite (bind_eq _ _ _ _ _ (load_eq _ _ _ Hd)), Hk.
  unfold bind at 1. simpl. destruct cache_address as [a|]; [|done].
  unfold cache_del. by destruct (cache self !! PyAddr a).
Qed.


Lemma release_device_info_eq self info d cache_id cache_address :
  records self !! info = Some d →
  DeviceInfo._cache_keys d = Some (cache_id, cache_address) →
  release_device_info info self =
    let second (c : gmap PyKey ref) :=
      match cache_address with
      | Some a =>
          match c !! PyAddr a with
          | Some _ => (mk (records self) (delete (PyAddr a) c), Return tt)
          | None => (mk (records self) c, Raise KeyError)
          end
      | None => (mk (records self) c, Return tt)
      end in
    match cache_id with
    | Some i =>
        match cache self !! PyInt i with
        | Some _ => second (delete (PyInt i) (cache self))
        | None => (self, Raise KeyError)
        end
    | None => second (cache self)
    end.
Proof.
  intros Hd Hk. unfold release_device_info.
  rewrite (bind_eq _ _ _ _ _ (load_eq _ _ _ Hd)), Hk.
  unfold bind, cache_del, ret. destruct self as [rs c]; simpl.
  destruct cache_id as [i|], cache_address as [a|]; simpl;
    repeat (case_match; simplify_eq/=); done.
Qed.

(** X2: reindexing follows a changed address.  When the address field of a
    record differs from its stored address key and the index has an entry
    under that key, [update_device_info] deletes that entry, enters the
    record under the new address, stores the new address as its key, and
    leaves every other entry and every other record alone. *)
Theorem update_device_info_follows_address
    (self : DeviceInfoCache.t) (info x : ref) (d : DeviceInfo.t)
    (cache_id : option Z) (a b : Address) :
  records self !! info = Some d →
  DeviceInfo._cache_keys d = Some (cache_id, Some a) →
  cache_id = None ∨ DeviceInfo.deviceIdentifier d = cache_id →
  DeviceInfo.address d = Some b →
  a ≠ b →
  cache self !! PyAddr a = Some x →
  ∃ self',
    update_device_info info self = (self', Return tt) ∧
    has_device_info (PyAddr a) self' = false ∧
    cache self' !! PyAddr b = Some info ∧
    (is_station b = true →
       get_device_info (PyAddr b) self' = (self', Return (Some info))) ∧
    records self' !! info = Some (DeviceInfo.set_cache_keys (cache_id, Some b) d) ∧
    (∀ key, key ≠ PyAddr a → key ≠ PyAddr b → cache self' !! key = cache self !! key) ∧
    (∀ other, other ≠ info → records self' !! other = records self !! other).
Proof.
  intros Hd Hk Hskip Hb Hne Hx. eexists. split.
  - rewrite (update_device_info_address_step _ _ _ _ _ Hd Hk Hskip).
    rewrite bool_decide_eq_true_2 by (rewrite Hb; congruence).
    rewrite Hx, Hb. reflexivity.
  - simpl. split; [|split; [|split; [|split; [|split]]]].
    + unfold has_device_info. simpl.
      rewrite lookup_insert_ne by congruence. rewrite lookup_delete_eq.
      apply bool_decide_eq_false_2. by intros [? ?].
    + by rewrite lookup_insert_eq.
    + intros Hst. apply get_device_info_hit; [done|]. simpl. by rewrite lookup_insert_eq.
    + apply list_lookup_insert_eq. by eapply lookup_lt_Some.
    + intros key Ha Hkb. rewrite lookup_insert_ne by done. by rewrite lookup_delete_ne.
    + intros other Ho. by rewrite list_lookup_insert_ne.
Qed.

Lemma update_device_info_follows_address_witness :
  ∃ self',
    update_device_info 0%nat moved_device = (self', Return tt) ∧
    has_device_info (PyAddr station1) self' = false ∧
    cache self' !! PyAddr station2 = Some 0%nat.
Proof.
  destruct (update_device_info_follows_address moved_device 0%nat 0%nat
              (DeviceInfo.set_address (Some station2) (announced (i_am station1)))
              None station1 station2)
    as (self' & Hup & Hgone & Hnew & _);
    [reflexivity|reflexivity|by left|reflexivity|discriminate|reflexivity|].
  exists self'. by repeat split.
Defined.

(** X3: reindexing a record onto an address that another record holds
    overwrites that entry without touching the other record's stored key;
    releasing the other record then deletes the entry by that key, after
    which no key of the index names the first record, which was never
    released and still stores the address as its key. *)
Theorem update_then_release_loses_record
    (self : DeviceInfoCache.t) (r1 r2 : ref) (d1 d2 : DeviceInfo.t) (a1 a2 : Address) :
  r1 ≠ r2 → a1 ≠ a2 →
  records self !! r1 = Some d1 →
  DeviceInfo._cache_keys d1 = Some (None, Some a1) →
  DeviceInfo.address d1 = Some a2 →
  records self !! r2 = Some d2 →
  DeviceInfo._cache_keys d2 = Some (None, Some a2) →
  cache self !! PyAddr a1 = Some r1 →
  cache self !! PyAddr a2 = Some r2 →
  (∀ key, cache self !! key = Some r1 → key = PyAddr a1) →
  ∃ s1 s2,
    update_device_info r1 self = (s1, Return tt) ∧
    cache s1 !! PyAddr a2 = Some r1 ∧
    release_device_info r2 s1 = (s2, Return tt) ∧
    (∀ key, cache s2 !! key ≠ Some r1) ∧
    records s2 !! r1 = Some (DeviceInfo.set_cache_keys (None, Some a2) d1).
Proof.
  intros Hr Ha Hd1 Hk1 Hb Hd2 Hk2 Hc1 Hc2 Honly.
  eexists _, _. split; [|split; [|split; [|split]]].
  - rewrite (update_device_info_address_step _ _ _ _ _ Hd1 Hk1 (or_introl eq_refl)).
    rewrite bool_decide_eq_true_2 by (rewrite Hb; congruence).
    rewrite Hc1, Hb. reflexivity.
  - simpl. by rewrite lookup_insert_eq.
  - erewrite release_device_info_address_only;
      [|simpl; rewrite list_lookup_insert_ne by done; exact Hd2|exact Hk2].
    simpl. by rewrite lookup_insert_eq.
  - simpl. intros key Hkey.
    apply lookup_delete_Some in Hkey as [Hk Hkey].
    rewrite lookup_insert_ne in Hkey by done.
    apply lookup_delete_Some in Hkey as [Hk' Hkey].
    by apply Honly in Hkey.
  - simpl. apply list_lookup_insert_eq. by eapply lookup_lt_Some.
Qed.

Lemma update_then_release_loses_record_witness :
  ∃ s1 s2,
    update_device_info 0%nat colliding_devices = (s1, Return tt) ∧
    release_device_info 1%nat s1 = (s2, Return tt) ∧
    ∀ key, cache s2 !! key ≠ Some 0%nat.
Proof.
  destruct (update_then_release_loses_record colliding_devices 0%nat 1%nat
              (DeviceInfo.set_address (Some station2) (announced (i_am station1)))
              (announced (IAmRequest.mk ("device", 8) station2 480 "segmentedBoth" (Some 15)))
              station1 station2)
    as (s1 & s2 & Hup & _ & Hrel & Hlost & _);
    [discriminate|discriminate|reflexivity|reflexivity|reflexivity|reflexivity
    |reflexivity|reflexivity|reflexivity| |].
  - intros key. unfold colliding_devices. simpl.
    destruct (decide (key = PyAddr station2)) as [->|H2];
      [by rewrite lookup_insert_eq|].
    rewrite lookup_insert_ne by done.
    destruct (decide (key = PyAddr station1)) as [->|H1]; [done|].
    rewrite lookup_insert_ne by done. by rewrite lookup_empty.
  - exists s1, s2. by repeat split.
Defined.

(** X4: releasing a record whose non-null stored keys are in the index
    returns normally; releasing it once more raises KeyError and leaves the
    cache as the first release left it. *)
Theorem release_device_info_twice
    (self : DeviceInfoCache.t) (info : ref) (d : DeviceInfo.t)
    (cache_id : option Z) (cache_address : option Address) :
  records self !! info = Some d →
  DeviceInfo._cache_keys d = Some (cache_id, cache_address) →
  (∀ i, cache_id = Some i → is_Some (cache self !! PyInt i)) →
  (∀ a, cache_address = Some a → is_Some (cache self !! PyAddr a)) →
  cache_id ≠ None ∨ cache_address ≠ None →
  ∃ self',
    release_device_info info self = (self', Return tt) ∧
    release_device_info info self' = (self', Raise KeyError).
Proof.
  intros Hd Hk Hid Ha Hsome.
  rewrite (release_device_info_eq _ _ _ _ _ Hd Hk). simpl.
  destruct cache_id as [i|], cache_address as [a|]; try (by destruct Hsome).
  - destruct (Hid i eq_refl) as [x Hx]. destruct (Ha a eq_refl) as [y Hy].
    rewrite Hx. rewrite lookup_delete_ne by done. rewrite Hy.
    eexists. split; [done|].
    erewrite release_device_info_eq; [|exact Hd|exact Hk]. simpl.
    rewrite lookup_delete_ne by done. by rewrite lookup_delete_eq.
  - destruct (Hid i eq_refl) as [x Hx]. rewrite Hx.
    eexists. split; [done|].
    erewrite release_device_info_eq; [|exact Hd|exact Hk]. simpl.
    by rewrite lookup_delete_eq.
  - destruct (Ha a eq_refl) as [y Hy]. rewrite Hy.
    eexists. split; [done|].
    erewrite release_device_info_eq; [|exact Hd|exact Hk]. simpl.
    by rewrite lookup_delete_eq.
Qed.

Lemma release_device_info_twice_witness :
  ∃ self',
    release_device_info 0%nat one_device = (self', Return tt) ∧
    release_device_info 0%nat self' = (self', Raise KeyError).
Proof.
  apply (release_device_info_twice one_device 0%nat
           (announced (i_am station1)) None (Some station1)).
  - reflexivity.
  - reflexivity.
  - discriminate.
  - intros a [= <-]. by eexists.
  - by right.
Defined.


(** X5: an announcement whose identifier is not indexed and whose source
    address names a record indexed under it is copied onto that record in
    place: the identifier and the three capability values are set, no record
    is created and the index is unchanged. *)
Theorem add_device_info_known_address
    (apdu : IAmRequest.t) (self : DeviceInfoCache.t) (info : ref) (d : DeviceInfo.t) :
  cache self !! PyInt (IAmRequest.iAmDeviceIdentifier apdu).2 = None →
  is_station (IAmRequest.pduSource apdu) = true →
  cache self !! PyAddr (IAmRequest.pduSource apdu) = Some info →
  records self !! info = Some d →
  DeviceInfo._cache_keys d = Some (None, Some (IAmRequest.pduSource apdu)) →
  DeviceInfo.address d = Some (IAmRequest.pduSource apdu) →
  add_device_info apdu self =
    (mk (<[info := refreshed apdu
                     (DeviceInfo.set_deviceIdentifier
                        (Some (IAmRequest.iAmDeviceIdentifier apdu).2) d)]>
           (records self))
        (cache self),
     Return tt).
Proof.
  intros Hi Hst Ha Hd Hk Haddr. unfold add_device_info.
  rewrite (bind_eq _ _ _ _ _ (get_device_info_int _ _)), Hi.
  rewrite (bind_eq _ _ _ _ _ (get_device_info_hit _ _ _ Hst Ha)).
  assert (Hlt : (info < length (records self))%nat) by (by eapply lookup_lt_Some).
  destruct self as [rs c]; simpl in *.
  erewrite bind_eq; [|by apply store_eq]. simpl.
  repeat (erewrite bind_eq;
            [|apply store_eq; simpl; by apply list_lookup_insert_eq];
          simpl; rewrite list_insert_insert_eq).
  erewrite update_device_info_null_id;
    [|simpl; apply list_lookup_insert_eq; done|simpl; exact Hk|simpl; exact Haddr].
  reflexivity.
Qed.

Lemma add_device_info_known_address_witness :
  add_device_info i_am_again one_device =
    (mk [refreshed i_am_again (announced (i_am station1))] (cache one_device),
     Return tt).
Proof.
  apply (add_device_info_known_address i_am_again one_device 0%nat
           (announced (i_am station1))); reflexivity.
Defined.

(** X6: when the announced identifier is indexed and names a record with
    another address, the record gets the source address and the capability
    values and is reindexed: the entry under its stored address key goes, the
    source address names it, and the identifier still finds it. *)
Theorem add_device_info_moves_indexed_record
    (apdu : IAmRequest.t) (self : DeviceInfoCache.t) (info x : ref)
    (d : DeviceInfo.t) (a1 : Address) :
  cache self !! PyInt (IAmRequest.iAmDeviceIdentifier apdu).2 = Some info →
  records self !! info = Some d →
  DeviceInfo._cache_keys d
    = Some (Some (IAmRequest.iAmDeviceIdentifier apdu).2, Some a1) →
  DeviceInfo.deviceIdentifier d = Some (IAmRequest.iAmDeviceIdentifier apdu).2 →
  DeviceInfo.address d ≠ Some (IAmRequest.pduSource apdu) →
  a1 ≠ IAmRequest.pduSource apdu →
  cache self !! PyAddr a1 = Some x →
  ∃ self',
    add_device_info apdu self = (self', Return tt) ∧
    get_device_info (PyInt (IAmRequest.iAmDeviceIdentifier apdu).2) self'
      = (self', Return (Some info)) ∧
    records self' !! info =
      Some (DeviceInfo.set_cache_keys
              (Some (IAmRequest.iAmDeviceIdentifier apdu).2,
               Some (IAmRequest.pduSource apdu))
              (refreshed apdu
                 (DeviceInfo.set_address (Some (IAmRequest.pduSource apdu)) d))) ∧
    has_device_info (PyAddr a1) self' = false ∧
    cache self' !! PyAddr (IAmRequest.pduSource apdu) = Some info.
Proof.
  intros Hi Hd Hk Hid Hne Ha Hx.
  assert (Hlt : (info < length (records self))%nat) by (by eapply lookup_lt_Some).
  destruct self as [rs c]; simpl in *.
  eexists. split.
  - unfold add_device_info.
    rewrite (bind_eq _ _ _ _ _ (get_device_info_int _ _)). simpl. rewrite Hi.
    erewrite (bind_eq (load info)); [|by apply load_eq].
    rewrite bool_decide_eq_false_2 by done.
    erewrite bind_eq; [|by apply store_eq]. simpl.
    repeat (erewrite bind_eq;
              [|apply store_eq; simpl; by apply list_lookup_insert_eq];
            simpl; rewrite list_insert_insert_eq).
    erewrite update_device_info_address_step;
      [|simpl; apply list_lookup_insert_eq; done|simpl; exact Hk|right; exact Hid].
    simpl. rewrite bool_decide_eq_true_2 by congruence.
    rewrite Hx. rewrite list_insert_insert_eq. reflexivity.
  - split; [|split; [|split]].
    + unfold cache_get, gets. simpl.
      rewrite lookup_insert_ne by done. rewrite lookup_delete_ne by done.
      by rewrite Hi.
    + simpl. by apply list_lookup_insert_eq.
    + unfold has_device_info. simpl.
      rewrite lookup_insert_ne by congruence. rewrite lookup_delete_eq.
      apply bool_decide_eq_false_2. by intros [? ?].
    + simpl. by rewrite lookup_insert_eq.
Qed.

Lemma add_device_info_moves_indexed_record_witness :
  ∃ self',
    add_device_info (i_am station2) indexed_by_identifier = (self', Return tt) ∧
    get_device_info (PyInt 7) self' = (self', Return (Some 0%nat)) ∧
    has_device_info (PyAddr station1) self' = false ∧
    cache self' !! PyAddr station2 = Some 0%nat.
Proof.
  destruct (add_device_info_moves_indexed_record (i_am station2)
              indexed_by_identifier 0%nat 0%nat
              (DeviceInfo.mk (Some 7) (Some station1) 480 "segmentedBoth" (Some 15)
                 1497 None (Some (Some 7, Some station1)))
              station1)
    as (self' & Hadd & Hget & _ & Hgone & Hnew);
    [reflexivity|reflexivity|reflexivity|reflexivity|discriminate|discriminate
    |reflexivity|].
  exists self'. by repeat split.
Defined.

(** X8: an announcement whose identifier is not indexed and whose source
    address is not a local or remote station raises TypeError and leaves the
    cache unchanged. *)
Theorem add_device_info_not_a_station
    (apdu : IAmRequest.t) (self : DeviceInfoCache.t) :
  cache self !! PyInt (IAmRequest.iAmDeviceIdentifier apdu).2 = None →
  is_station (IAmRequest.pduSource apdu) = false →
  add_device_info apdu self =
    (self, Raise (TypeError "address must be a local or remote station")).
Proof.
  intros Hi Hst. unfold add_device_info.
  rewrite (bind_eq _ _ _ _ _ (get_device_info_int _ _)), Hi.
  unfold bind, get_device_info. by rewrite Hst.
Qed.

Lemma add_device_info_not_a_station_witness :
  add_device_info (i_am everyone) one_device =
    (one_device, Raise (TypeError "address must be a local or remote station")).
Proof.
  apply (add_device_info_not_a_station (i_am everyone) one_device); reflexivity.
Defined.


Lemma index_sound_store self info f :
  (∀ d, DeviceInfo._cache_keys (f d) = DeviceInfo._cache_keys d) →
  index_sound self → index_sound (store info f self).1.
Proof.
  intros Hf [Ha Hn Ho]. unfold store, bind, load, modify.
  destruct (records self !! info) as [d|] eqn:Hd; simpl; [|by split].
  assert (Hkeep : ∀ l d' keys, records self !! l = Some d' →
            DeviceInfo._cache_keys d' = Some keys →
            ∃ d'', <[info := f d]> (records self) !! l = Some d'' ∧
                   DeviceInfo._cache_keys d'' = Some keys).
  { intros l d' keys Hl Hk. destruct (decide (l = info)) as [->|Hne].
    - exists (f d). rewrite list_lookup_insert_eq by (by eapply lookup_lt_Some).
      split; [done|]. rewrite Hf. congruence.
    - exists d'. by rewrite list_lookup_insert_ne. }
  split; simpl; [| |done].
  - intros a l Hl. destruct (Ha a l Hl) as (d' & Hd' & Hk'). by eapply Hkeep.
  - intros l Hl. destruct (Hn l Hl) as (d' & Hd' & Hk'). by eapply Hkeep.
Qed.

Lemma index_sound_get key self :
  index_sound self → index_sound (get_device_info key self).1.
Proof.
  intros HS. destruct key as [n|a| |s]; [exact HS| |exact HS|exact HS].
  unfold get_device_info. destruct (is_station a); [|exact HS].
  unfold bind, cache_get, gets.
  destruct (cache self !! PyAddr a) as [found|]; [exact HS|].
  destruct HS as [Ha Hn Ho]. split; simpl.
  - intros a' l Hl. destruct (decide (a' = a)) as [->|Hne].
    + rewrite lookup_insert_eq in Hl. injection Hl as <-.
      eexists. split; [apply snoc_lookup|done].
    + rewrite lookup_insert_ne in Hl by congruence.
      destruct (Ha a' l Hl) as (d' & Hd' & Hk').
      exists d'. split; [|done]. by apply lookup_app_l_Some.
  - intros l Hl. rewrite lookup_insert_ne in Hl by done.
    destruct (Hn l Hl) as (d' & Hd' & Hk').
    exists d'. split; [|done]. by apply lookup_app_l_Some.
  - intros s. rewrite lookup_insert_ne by done. apply Ho.
Qed.

Lemma index_sound_delete self key :
  index_sound self → index_sound (mk (records self) (delete key (cache self))).
Proof.
  intros [Ha Hn Ho]. split; simpl.
  - intros a l Hl. apply lookup_delete_Some in Hl as [_ Hl]. by apply Ha.
  - intros l Hl. apply lookup_delete_Some in Hl as [_ Hl]. by apply Hn.
  - intros s. apply lookup_delete_None. right. apply Ho.
Qed.

Lemma index_sound_release info self :
  identifier_free self → index_sound self →
  index_sound (release_device_info info self).1.
Proof.
  intros HJ HS.
  destruct (records self !! info) as [d|] eqn:Hd;
    [|unfold release_device_info, bind, load; by rewrite Hd].
  destruct (DeviceInfo._cache_keys d) as [[cache_id cache_address]|] eqn:Hk;
    [|unfold release_device_info, bind, load; by rewrite Hd, Hk].
  assert (cache_id = None) as -> by apply (no_id_key _ HJ info d _ Hd Hk).
  rewrite (release_device_info_address_only _ _ _ _ Hd Hk).
  destruct cache_address as [a|]; [|done].
  destruct (cache self !! PyAddr a); [|done]. by apply index_sound_delete.
Qed.

Lemma index_sound_update info self :
  identifier_free self → index_sound self →
  index_sound (update_device_info info self).1.
Proof.
  intros HJ HS.
  destruct (records self !! info) as [d|] eqn:Hd;
    [|unfold update_device_info, bind, load; by rewrite Hd].
  destruct (DeviceInfo._cache_keys d) as [[cache_id cache_address]|] eqn:Hk;
    [|unfold update_device_info, bind, load; by rewrite Hd, Hk].
  assert (cache_id = None) as -> by apply (no_id_key _ HJ info d _ Hd Hk).
  rewrite (update_device_info_address_step _ _ _ _ _ Hd Hk (or_introl eq_refl)).
  destruct cache_address as [a|]; [|done].
  case_bool_decide as Hne; [|done].
  destruct (cache self !! PyAddr a) as [x|] eqn:Hx; [|done]. simpl.
  destruct HS as [Ha Hn Ho].
  assert (Hlt : (info < length (records self))%nat) by (by eapply lookup_lt_Some).
  assert (Hother : ∀ l d' keys,
            records self !! l = Some d' → DeviceInfo._cache_keys d' = Some keys →
            keys ≠ (None, Some a) →
            ∃ d'', <[info := DeviceInfo.set_cache_keys (None, DeviceInfo.address d) d]>
                     (records self) !! l = Some d'' ∧
                   DeviceInfo._cache_keys d'' = Some keys).
  { intros l d' keys Hl Hk' Hkeys. destruct (decide (l = info)) as [->|Hl'].
    - congruence.
    - exists d'. by rewrite list_lookup_insert_ne. }
  split; simpl.
  - intros a' l Hl. destruct (decide (DeviceInfo.address d = Some a')) as [Heq|Hdiff].
    + rewrite Heq in Hl. simpl in Hl. rewrite lookup_insert_eq in Hl.
      injection Hl as <-. eexists. split; [by apply list_lookup_insert_eq|].
      by rewrite Heq.
    + rewrite lookup_insert_ne in Hl by (destruct (DeviceInfo.address d); naive_solver).
      apply lookup_delete_Some in Hl as [Hkey Hl].
      destruct (Ha a' l Hl) as (d' & Hd' & Hk').
      eapply Hother; [done|done|congruence].
  - intros l Hl. destruct (DeviceInfo.address d) as [b|] eqn:Hb; simpl in Hl.
    + rewrite lookup_insert_ne in Hl by done.
      apply lookup_delete_Some in Hl as [_ Hl].
      destruct (Hn l Hl) as (d' & Hd' & Hk'). by eapply Hother.
    + rewrite lookup_insert_eq in Hl. injection Hl as <-.
      eexists. split; [by apply list_lookup_insert_eq|done].
  - intros s. rewrite lookup_insert_ne by (by destruct (DeviceInfo.address d)).
    apply lookup_delete_None. right. apply Ho.
Qed.

Lemma index_sound_add apdu self :
  identifier_free self → index_sound self →
  index_sound (add_device_info apdu self).1.
Proof.
  intros HJ HS. unfold add_device_info.
  rewrite (bind_eq _ _ _ _ _ (get_device_info_int _ _)).
  rewrite (no_int_key _ HJ).
  pose proof (identifier_free_get (PyAddr (IAmRequest.pduSource apdu)) self HJ) as HJ1.
  pose proof (index_sound_get (PyAddr (IAmRequest.pduSource apdu)) self HS) as HS1.
  apply bind_fst; [by intros s1 e Hs; rewrite Hs in HS1|].
  intros s1 created Hs. rewrite Hs in HJ1, HS1. simpl in HJ1, HS1.
  destruct created as [info|]; [|done].
  assert (Hstep : ∀ f s (k : unit → M unit),
            (∀ d, DeviceInfo._cache_keys (f d) = DeviceInfo._cache_keys d) →
            identifier_free s → index_sound s →
            (∀ s', identifier_free s' → index_sound s' → index_sound (k tt s').1) →
            index_sound (bind (store info f) k s).1).
  { intros f s k Hf HJs HSs Hk.
    pose proof (identifier_free_store s info f (λ d, or_introl (Hf d)) HJs) as HJ'.
    pose proof (index_sound_store s info f Hf HSs) as HS'.
    apply bind_fst.
    - intros s2 e Heq. by rewrite Heq in HS'.
    - intros s2 [] Heq. rewrite Heq in HJ', HS'. by apply Hk. }
  apply Hstep; [done|done|done|]. intros s2 HJ2 HS2.
  apply Hstep; [done|done|done|]. intros s3 HJ3 HS3.
  apply Hstep; [done|done|done|]. intros s4 HJ4 HS4.
  apply Hstep; [done|done|done|]. intros s5 HJ5 HS5.
  by apply index_sound_update.
Qed.

Lemma cache_run_snoc calls c :
  cache_run (calls ++ [c]) = cache_exec (cache_run calls) c.
Proof. unfold cache_run. by rewrite foldl_app. Qed.

Lemma cache_run_index_sound calls : index_sound (cache_run calls).
Proof.
  induction calls as [|c calls IH] using rev_ind.
  - split; simpl; [intros a l Hl|intros l Hl|intros s];
      [by rewrite lookup_empty in Hl|by rewrite lookup_empty in Hl|apply lookup_empty].
  - rewrite cache_run_snoc.
    pose proof (cache_run_identifier_free calls) as HJ.
    destruct c; simpl.
    + by apply index_sound_get.
    + by apply index_sound_add.
    + by apply index_sound_update.
    + by apply index_sound_release.
    + by apply index_sound_store.
    + by apply index_sound_store.
Qed.

(** X9: in a cache reached from the empty one by any calls of its methods
    and assignments to record fields, whenever [get_device_info] returns a
    record the key was a station address, the record is in the store, its
    stored address key is that address, and the index names it under that
    address. *)
Theorem cache_run_lookup_sound (calls : list CacheCall) (key : PyKey)
    (self' : DeviceInfoCache.t) (info : ref) :
  get_device_info key (cache_run calls) = (self', Return (Some info)) →
  ∃ a d, key = PyAddr a ∧ is_station a = true ∧
         records self' !! info = Some d ∧
         DeviceInfo._cache_keys d = Some (None, Some a) ∧
         cache self' !! PyAddr a = Some info.
Proof.
  intros Hget.
  pose proof (index_sound_get key _ (cache_run_index_sound calls)) as HS.
  rewrite Hget in HS. simpl in HS.
  destruct key as [n|a| |s]; try (simpl in Hget; unfold raise in Hget; congruence).
  - rewrite get_device_info_int, (no_int_key _ (cache_run_identifier_free calls)) in Hget.
    congruence.
  - destruct (is_station a) eqn:Hst;
      [|unfold get_device_info in Hget; rewrite Hst in Hget;
        unfold raise in Hget; congruence].
    assert (Hc : cache self' !! PyAddr a = Some info).
    { destruct (cache (cache_run calls) !! PyAddr a) as [l|] eqn:Hc.
      - rewrite (get_device_info_hit a _ l Hst Hc) in Hget.
        injection Hget as <- <-. done.
      - rewrite (get_device_info_miss a _ Hst Hc) in Hget.
        injection Hget as <- <-. simpl. by rewrite lookup_insert_eq. }
    destruct (addr_entry _ HS a info Hc) as (d & Hd & Hk).
    by exists a, d.
Qed.

Lemma cache_run_lookup_sound_witness :
  ∃ a d, PyAddr station1 = PyAddr a ∧ is_station a = true ∧
         records (cache_run [CallAdd (i_am station1)]) !! 0%nat = Some d ∧
         DeviceInfo._cache_keys d = Some (None, Some a) ∧
         cache (cache_run [CallAdd (i_am station1)]) !! PyAddr a = Some 0%nat.
Proof.
  apply (cache_run_lookup_sound [CallAdd (i_am station1)] (PyAddr station1)
           (cache_run [CallAdd (i_am station1)]) 0%nat).
  vm_compute. reflexivity.
Defined.

End DeviceInfoCacheMore.

(** ** The object registry and the dispatcher *)

Module RegistryFacts.
Import Application.

Lemma add_object_eq maximum_instance_number self obj dev o d ident :
  localDevice self = Some dev →
  objects self !! dev = Some d →
  objects self !! obj = Some o →
  obj ≠ dev →
  LocalObject.objectName o ≠ "" →
  LocalObject.objectIdentifier o = Some ident →
  ident.2 < maximum_instance_number →
  objectName self !! LocalObject.objectName o = None →
  objectIdentifier self !! Some ident = None →
  add_object maximum_instance_number obj self =
    (set_objects (ObjectRegistry.registered obj dev o d ident (objects self))
       (set_objectIdentifier (<[Some ident := obj]> (objectIdentifier self))
          (set_objectName (<[LocalObject.objectName o := obj]> (objectName self)) self)),
     Return tt).
Proof.
  intros Hdev Hd Ho Hne Hname Hid Hmax Hfree1 Hfree2.
  unfold add_object.
  erewrite bind_eq; [|unfold load; by rewrite Ho].
  rewrite bool_decide_eq_false_2 by done. rewrite Hid.
  rewrite bool_decide_eq_false_2 by lia.
  erewrite bind_eq; [|reflexivity].
  rewrite Hfree1. rewrite bool_decide_eq_false_2 by (by intros [? ?]).
  erewrite bind_eq; [|reflexivity].
  rewrite Hfree2. rewrite bool_decide_eq_false_2 by (by intros [? ?]).
  do 2 (erewrite bind_eq; [|reflexivity]).
  destruct self as [objs names ids ld cache ctls down comp]; simpl in *. subst ld.
  unfold ObjectRegistry.registered, store, load, bind, gets, modify, ret; simpl. rewrite Hd.
  destruct (LocalObject.objectList d) as [[|first others]|]; simpl;
    rewrite ?Hd, ?Ho; simpl; try done.
  by rewrite list_lookup_insert_ne, Ho by done.
Qed.


(** X10: with a local device, adding another object that passes the checks
    returns normally: the object is found by its name and by its identifier,
    other names and identifiers resolve as before, the object is marked
    attached, and the device's object list gets the identifier appended when
    it is a non-empty list and is left as it is when it is empty or absent. *)
Theorem add_object_registers
    (maximum_instance_number : Z) (self : t) (obj dev : ref)
    (o d : LocalObject.t) (ident : string * Z) :
  localDevice self = Some dev →
  objects self !! dev = Some d →
  objects self !! obj = Some o →
  obj ≠ dev →
  LocalObject.objectName o ≠ "" →
  LocalObject.objectIdentifier o = Some ident →
  ident.2 < maximum_instance_number →
  objectName self !! LocalObject.objectName o = None →
  objectIdentifier self !! Some ident = None →
  ∃ self',
    add_object maximum_instance_number obj self = (self', Return tt) ∧
    get_object_name (LocalObject.objectName o) self' = Some obj ∧
    get_object_id (Some ident) self' = Some obj ∧
    (∀ name, name ≠ LocalObject.objectName o →
       get_object_name name self' = get_object_name name self) ∧
    (∀ objid, objid ≠ Some ident → get_object_id objid self' = get_object_id objid self) ∧
    objects self' !! obj = Some (LocalObject.set_app true o) ∧
    objects self' !! dev =
      Some (match LocalObject.objectList d with
            | Some (first :: others) =>
                LocalObject.set_objectList (Some ((first :: others) ++ [ident])) d
            | _ => d
            end).
Proof.
  intros Hdev Hd Ho Hne Hname Hid Hmax Hfree1 Hfree2.
  eexists. split; [by eapply add_object_eq|].
  assert (Hlo : (obj < length (objects self))%nat) by (by eapply lookup_lt_Some).
  assert (Hld : (dev < length (objects self))%nat) by (by eapply lookup_lt_Some).
  unfold get_object_name, get_object_id, ObjectRegistry.registered. simpl.
  split; [by rewrite lookup_insert_eq|]. split; [by rewrite lookup_insert_eq|].
  split; [by intros name Hn; rewrite lookup_insert_ne|].
  split; [by intros objid Hn; rewrite lookup_insert_ne|].
  destruct (LocalObject.objectList d) as [[|first others]|]; simpl.
  - split; [by apply list_lookup_insert_eq|by rewrite list_lookup_insert_ne].
  - split; [apply list_lookup_insert_eq; by rewrite length_insert|].
    rewrite list_lookup_insert_ne by done. by apply list_lookup_insert_eq.
  - split; [by apply list_lookup_insert_eq|by rewrite list_lookup_insert_ne].
Qed.

Lemma add_object_registers_witness :
  ∃ self',
    add_object 4194303 1%nat hosted_app = (self', Return tt) ∧
    get_object_name "AV1" self' = Some 1%nat ∧
    get_object_id (Some ("analogValue", 1)) self' = Some 1%nat ∧
    (LocalObject.objectList <$> objects self' !! 0%nat)
      = Some (Some [("device", 7); ("analogValue", 1)]).
Proof.
  destruct (add_object_registers 4194303 hosted_app 1%nat 0%nat analog_value
              (LocalObject.set_app true device_object) ("analogValue", 1))
    as (self' & Hadd & Hname & Hid & _ & _ & _ & Hdev);
    [reflexivity|reflexivity|reflexivity|discriminate|discriminate|reflexivity
    |reflexivity|reflexivity|reflexivity|].
  exists self'. split; [done|]. split; [done|]. split; [done|]. by rewrite Hdev.
Defined.

Lemma add_object_check_fails maximum_instance_number self obj o :
  objects self !! obj = Some o →
  ObjectRegistry.unacceptable maximum_instance_number self o →
  ∃ msg, add_object maximum_instance_number obj self = (self, Raise (RuntimeError msg)).
Proof.
  intros Ho Hbad. unfold ObjectRegistry.unacceptable in Hbad. unfold add_object.
  erewrite bind_eq; [|unfold load; by rewrite Ho].
  case_bool_decide as Hname; [by eexists|].
  destruct (LocalObject.objectIdentifier o) as [ident|] eqn:Hid; [|by eexists].
  case_bool_decide as Hmax; [by eexists|].
  erewrite bind_eq; [|reflexivity].
  case_bool_decide as Hn; [by eexists|].
  erewrite bind_eq; [|reflexivity].
  case_bool_decide as Hi; [by eexists|].
  exfalso. destruct Hbad as [?|[?|[(i & [= <-] & ?)|[?|?]]]]; first [done|lia].
Qed.

(** X11: [add_object] raises RuntimeError exactly when one of its five checks
    fails (no name, no identifier, instance number not below the maximum,
    name taken, identifier taken), and then the application is unchanged. *)
Theorem add_object_rejected
    (maximum_instance_number : Z) (self : t) (obj : ref) (o : LocalObject.t) :
  objects self !! obj = Some o →
  (ObjectRegistry.unacceptable maximum_instance_number self o →
   ∃ msg, add_object maximum_instance_number obj self
            = (self, Raise (RuntimeError msg))) ∧
  (∀ self' msg,
     add_object maximum_instance_number obj self = (self', Raise (RuntimeError msg)) →
     ObjectRegistry.unacceptable maximum_instance_number self o ∧ self' = self).
Proof.
  intros Ho. split; [by apply add_object_check_fails|].
  intros self' msg Hadd.
  destruct (decide (LocalObject.objectName o = "")) as [?|Hname];
    [|destruct (LocalObject.objectIdentifier o) as [ident|] eqn:Hid;
      [destruct (decide (maximum_instance_number ≤ ident.2)) as [?|Hmax];
       [|destruct (objectName self !! LocalObject.objectName o) as [x|] eqn:Hn;
         [|destruct (objectIdentifier self !! Some ident) as [y|] eqn:Hi]]|]].
  1-4, 6: assert (Hbad : ObjectRegistry.unacceptable maximum_instance_number self o);
    [unfold ObjectRegistry.unacceptable; rewrite ?Hid, ?Hn, ?Hi; naive_solver|];
    destruct (add_object_check_fails _ _ _ _ Ho Hbad) as [msg' Heq];
    rewrite Heq in Hadd; by injection Hadd as <- _.
  exfalso. revert Hadd. unfold add_object.
  erewrite bind_eq; [|unfold load; by rewrite Ho].
  rewrite bool_decide_eq_false_2 by done. rewrite Hid.
  rewrite bool_decide_eq_false_2 by lia.
  erewrite bind_eq; [|reflexivity].
  rewrite Hn. rewrite bool_decide_eq_false_2 by (by intros [? ?]).
  erewrite bind_eq; [|reflexivity].
  rewrite Hi. rewrite bool_decide_eq_false_2 by (by intros [? ?]).
  unfold bind, modify, gets, store, load, raise, ret; simpl.
  repeat (first [progress (unfold bind, modify; simpl)|case_match; simplify_eq/=]);
    congruence.
Qed.

Lemma add_object_rejected_witness :
  ∃ msg, add_object 4194303 0%nat hosted_app = (hosted_app, Raise (RuntimeError msg)).
Proof.
  apply (add_object_rejected 4194303 hosted_app 0%nat
           (LocalObject.set_app true device_object)); [reflexivity|].
  right. right. right. left. by eexists.
Defined.

(** X12: an application constructed around a local device finds the device
    by its name, and adding the device again raises RuntimeError and changes
    nothing. *)
Theorem add_object_local_device_again
    (maximum_instance_number : Z) (objs : list LocalObject.t) (dev : ref)
    (deviceInfoCache : option DeviceInfoCache.t) (self : t) :
  __init__ objs (Some dev) deviceInfoCache = Return self →
  get_object_name
    (default "" (LocalObject.objectName <$> objs !! dev)) self = Some dev ∧
  ∃ msg, add_object maximum_instance_number dev self = (self, Raise (RuntimeError msg)).
Proof.
  unfold __init__. destruct (objs !! dev) as [d|] eqn:Hd; [|done].
  intros [= <-]. simpl. split.
  - unfold get_object_name. simpl. by rewrite lookup_singleton_eq.
  - eapply (add_object_check_fails _ _ dev (LocalObject.set_app true d)).
    + simpl. apply list_lookup_insert_eq. by eapply lookup_lt_Some.
    + right. right. right. left. simpl. rewrite lookup_singleton_eq. by eexists.
Qed.

Lemma add_object_local_device_again_witness :
  get_object_name "device" hosted_app = Some 0%nat ∧
  ∃ msg, add_object 4194303 0%nat hosted_app = (hosted_app, Raise (RuntimeError msg)).
Proof.
  apply (add_object_local_device_again 4194303 [device_object; analog_value] 0%nat None
           hosted_app).
  reflexivity.
Defined.


Lemma index_snoc {A} `{EqDecision A} (x : A) (l : list A) :
  x ∉ l → ObjectRegistry.index x (l ++ [x]) = Some (length l).
Proof.
  induction l as [|y l IH]; simpl; intros Hx.
  - by rewrite decide_True.
  - apply not_elem_of_cons in Hx as [Hne Hx].
    rewrite decide_False by done. by rewrite IH.
Qed.

Lemma index_None {A} `{EqDecision A} (x : A) (l : list A) :
  x ∉ l → ObjectRegistry.index x l = None.
Proof.
  induction l as [|y l IH]; simpl; intros Hx; [done|].
  apply not_elem_of_cons in Hx as [Hne Hx].
  rewrite decide_False by done. by rewrite IH.
Qed.

Lemma restore_two {A} (l : list A) i j x y x' y' :
  i ≠ j → l !! i = Some x → l !! j = Some y →
  <[i := x]> (<[j := y]> (<[i := x']> (<[j := y']> l))) = l.
Proof.
  intros Hne Hi Hj.
  rewrite (list_insert_insert_ne _ j i) by done.
  rewrite list_insert_insert_eq.
  rewrite list_insert_insert_eq.
  rewrite (list_insert_id _ j) by done. by apply list_insert_id.
Qed.

Lemma delete_object_eq self obj dev o d x y objs' :
  localDevice self = Some dev →
  objects self !! dev = Some d →
  objects self !! obj = Some o →
  obj ≠ dev →
  objectName self !! LocalObject.objectName o = Some x →
  objectIdentifier self !! LocalObject.objectIdentifier o = Some y →
  ObjectRegistry.unregistered obj dev o d (objects self) = Some objs' →
  ObjectRegistry.delete_object obj self =
    (set_objects objs'
       (set_objectIdentifier
          (delete (LocalObject.objectIdentifier o) (objectIdentifier self))
          (set_objectName (delete (LocalObject.objectName o) (objectName self)) self)),
     Return tt).
Proof.
  intros Hdev Hd Ho Hne Hx Hy Hun.
  destruct self as [objs names ids ld cache ctls down comp]; simpl in *. subst ld.
  unfold ObjectRegistry.delete_object, ObjectRegistry.del_objectName,
    ObjectRegistry.del_objectIdentifier, ObjectRegistry.store, ObjectRegistry.unregistered in *.
  unfold bind, load, gets, modify, ret, raise; simpl.
  rewrite Ho; simpl. rewrite Hx; simpl. rewrite Hy; simpl. rewrite Hd; simpl.
  destruct (LocalObject.objectList d) as [[|first others]|]; simpl in *.
  - rewrite Ho. simpl. by injection Hun as <-.
  - destruct (LocalObject.objectIdentifier o ≫= _) as [indx|]; [|done].
    simpl in *. injection Hun as <-. rewrite Hd. simpl.
    rewrite list_lookup_insert_ne by done. rewrite Ho. done.
  - rewrite Ho. simpl. by injection Hun as <-.
Qed.

(** X13: with a local device, adding an unattached object whose identifier
    is not in the device's object list and then deleting it returns the
    application to the state it was in. *)
Theorem add_then_delete_object
    (maximum_instance_number : Z) (self : t) (obj dev : ref)
    (o d : LocalObject.t) (ident : string * Z) :
  localDevice self = Some dev →
  objects self !! dev = Some d →
  objects self !! obj = Some o →
  obj ≠ dev →
  LocalObject.objectName o ≠ "" →
  LocalObject.objectIdentifier o = Some ident →
  ident.2 < maximum_instance_number →
  objectName self !! LocalObject.objectName o = None →
  objectIdentifier self !! Some ident = None →
  LocalObject._app o = false →
  (∀ l, LocalObject.objectList d = Some l → ident ∉ l) →
  ∃ self',
    add_object maximum_instance_number obj self = (self', Return tt) ∧
    ObjectRegistry.delete_object obj self' = (self, Return tt).
Proof.
  intros Hdev Hd Ho Hne Hname Hid Hmax Hfree1 Hfree2 Happ Hnew.
  eexists. split; [by eapply add_object_eq|].
  assert (Hlo : (obj < length (objects self))%nat) by (by eapply lookup_lt_Some).
  assert (Hld : (dev < length (objects self))%nat) by (by eapply lookup_lt_Some).
  assert (Ho' : LocalObject.set_app false (LocalObject.set_app true o) = o)
    by (destruct o; simpl in *; by subst).
  set (d1 := match LocalObject.objectList d with
             | Some (first :: others) =>
                 LocalObject.set_objectList (Some ((first :: others) ++ [ident])) d
             | _ => d
             end).
  assert (Hd1 : ObjectRegistry.registered obj dev o d ident (objects self) !! dev = Some d1).
  { unfold ObjectRegistry.registered, d1. rewrite list_lookup_insert_ne by done.
    destruct (LocalObject.objectList d) as [[|first others]|]; try done.
    by apply list_lookup_insert_eq. }
  assert (Ho1 : ObjectRegistry.registered obj dev o d ident (objects self) !! obj
                = Some (LocalObject.set_app true o)).
  { unfold ObjectRegistry.registered. apply list_lookup_insert_eq.
    destruct (LocalObject.objectList d) as [[|first others]|];
      by rewrite ?length_insert. }
  erewrite (delete_object_eq _ _ _ _ _ _ _ (objects self));
    [|done|exact Hd1|exact Ho1|done|simpl; apply lookup_insert_eq
     |simpl; rewrite Hid; apply lookup_insert_eq|].
  - simpl. rewrite Hid. rewrite !delete_insert_id by done.
    destruct self; simpl in *. reflexivity.
  - unfold ObjectRegistry.unregistered, d1, ObjectRegistry.registered. simpl. rewrite Hid, Ho'.
    destruct (LocalObject.objectList d) as [[|first others]|] eqn:Hl; simpl.
    + rewrite Hl. by rewrite list_insert_insert_eq, list_insert_id.
    + pose proof (index_snoc ident (first :: others) (Hnew _ eq_refl)) as Hix.
      simpl in Hix. rewrite Hix. simpl.
      rewrite (delete_middle others [] ident), app_nil_r.
      assert (Hd' : LocalObject.set_objectList (Some (first :: others))
                      (LocalObject.set_objectList
                         (Some (first :: others ++ [ident])) d) = d)
        by (destruct d; simpl in *; by subst).
      rewrite Hd'. by rewrite restore_two.
    + rewrite Hl. by rewrite list_insert_insert_eq, list_insert_id.
Qed.

Lemma add_then_delete_object_witness :
  ∃ self',
    add_object 4194303 1%nat hosted_app = (self', Return tt) ∧
    ObjectRegistry.delete_object 1%nat self' = (hosted_app, Return tt).
Proof.
  apply (add_then_delete_object 4194303 hosted_app 1%nat 0%nat analog_value
           (LocalObject.set_app true device_object) ("analogValue", 1));
    [reflexivity|reflexivity|reflexivity|discriminate|discriminate|reflexivity
    |reflexivity|reflexivity|reflexivity|reflexivity|].
  intros l [= <-]. intros Hin. apply list_elem_of_singleton in Hin. discriminate.
Defined.


(** X14: [delete_object] is not atomic.  An unregistered name raises
    KeyError with nothing changed; a registered name with an unregistered
    identifier raises KeyError after the name was removed; without a local
    device it raises AttributeError after both entries were removed; and when
    the device's non-empty object list lacks the identifier it raises
    ValueError after both entries were removed. *)
Theorem delete_object_failures (self : t) (obj : ref) (o : LocalObject.t) :
  objects self !! obj = Some o →
  let names := delete (LocalObject.objectName o) (objectName self) in
  let identifiers := delete (LocalObject.objectIdentifier o) (objectIdentifier self) in
  (objectName self !! LocalObject.objectName o = None →
     ObjectRegistry.delete_object obj self
       = (self, Raise (ObjectRegistry.Builtin KeyError))) ∧
  (is_Some (objectName self !! LocalObject.objectName o) →
   objectIdentifier self !! LocalObject.objectIdentifier o = None →
     ObjectRegistry.delete_object obj self
       = (set_objectName names self, Raise (ObjectRegistry.Builtin KeyError))) ∧
  (is_Some (objectName self !! LocalObject.objectName o) →
   is_Some (objectIdentifier self !! LocalObject.objectIdentifier o) →
   localDevice self = None →
     ObjectRegistry.delete_object obj self
       = (set_objectIdentifier identifiers (set_objectName names self),
          Raise (ObjectRegistry.Builtin (AttributeError "localDevice")))) ∧
  (∀ dev d first others,
     is_Some (objectName self !! LocalObject.objectName o) →
     is_Some (objectIdentifier self !! LocalObject.objectIdentifier o) →
     localDevice self = Some dev →
     objects self !! dev = Some d →
     LocalObject.objectList d = Some (first :: others) →
     (∀ ident, LocalObject.objectIdentifier o = Some ident → ident ∉ first :: others) →
     ∃ msg,
       ObjectRegistry.delete_object obj self
         = (set_objectIdentifier identifiers (set_objectName names self),
            Raise (ObjectRegistry.ValueError msg))).
Proof.
  intros Ho names identifiers.
  destruct self as [objs ns ids ld cache ctls down comp]; simpl in *.
  unfold ObjectRegistry.delete_object, ObjectRegistry.del_objectName,
    ObjectRegistry.del_objectIdentifier, ObjectRegistry.store.
  unfold bind, load, gets, modify, ret, raise; simpl. rewrite Ho; simpl.
  split; [by intros ->|].
  split; [by intros [x ->]; simpl; intros ->|].
  split; [by intros [x ->]; simpl; intros [y ->]; simpl; intros ->|].
  intros dev d first others [x ->]; simpl. intros [y ->]; simpl.
  intros -> Hd Hl Hnot. simpl. rewrite Hd; simpl. rewrite Hl.
  destruct (LocalObject.objectIdentifier o) as [ident|]; simpl; [|by eexists].
  specialize (Hnot ident eq_refl). apply not_elem_of_cons in Hnot as [Hne Hnot].
  rewrite decide_False by done. rewrite (index_None ident others Hnot). by eexists.
Qed.

Lemma delete_object_failures_witness :
  ObjectRegistry.delete_object 0%nat bare_app
    = (bare_app, Raise (ObjectRegistry.Builtin KeyError)) ∧
  ObjectRegistry.delete_object 0%nat half_registered
    = (bare_app, Raise (ObjectRegistry.Builtin KeyError)) ∧
  ObjectRegistry.delete_object 0%nat registered_without_device
    = (bare_app, Raise (ObjectRegistry.Builtin (AttributeError "localDevice"))) ∧
  ∃ msg,
    ObjectRegistry.delete_object 1%nat unlisted_app
      = (hosted_app, Raise (ObjectRegistry.ValueError msg)).
Proof.
  split; [|split; [|split]].
  - destruct (delete_object_failures bare_app 0%nat analog_value) as [Hmissing _];
      [reflexivity|].
    apply Hmissing. reflexivity.
  - destruct (delete_object_failures half_registered 0%nat analog_value)
      as (_ & Hhalf & _); [reflexivity|].
    rewrite Hhalf; [|by eexists|reflexivity].
    unfold half_registered, bare_app, set_objectName. simpl.
    by rewrite delete_insert_id.
  - destruct (delete_object_failures registered_without_device 0%nat analog_value)
      as (_ & _ & Hnodev & _); [reflexivity|].
    rewrite Hnodev; [|by eexists|by eexists|reflexivity].
    unfold registered_without_device, bare_app, set_objectName, set_objectIdentifier.
    simpl. by rewrite !delete_insert_id.
  - destruct (delete_object_failures unlisted_app 1%nat analog_value)
      as (_ & _ & _ & Hnolist); [reflexivity|].
    destruct (Hnolist 0%nat (LocalObject.set_app true device_object)
                ("device", 7) [])
      as [msg Hdel];
      [by eexists|by eexists|reflexivity|reflexivity|reflexivity| |].
    + intros ident [= <-] Hin. apply list_elem_of_singleton in Hin. discriminate.
    + exists msg. rewrite Hdel.
      unfold unlisted_app, hosted_app, set_objectName, set_objectIdentifier.
      simpl. by rewrite !delete_insert_id.
Defined.

End RegistryFacts.

Module DispatchFacts.
Import Application.

(** X15: [request] of a message that is neither an unconfirmed nor a
    confirmed request raises UnboundLocalError and leaves the application
    unchanged: nothing is sent and no controller is created. *)
Theorem request_not_a_request (apdu : APDU) (self : t) :
  pdu_type apdu ≠ UnconfirmedRequestPDU →
  pdu_type apdu ≠ ConfirmedRequestPDU →
  request apdu self = (self, Raise (UnboundLocalError "iocb")).
Proof. intros H1 H2. unfold request. by destruct (pdu_type apdu). Qed.

Lemma request_not_a_request_witness :
  request ack1 bare_app = (bare_app, Raise (UnboundLocalError "iocb")).
Proof. apply (request_not_a_request ack1 bare_app); discriminate. Defined.

(** X16: a confirmation from an address without a controller is dropped,
    whatever its type; with a controller, a message that is neither an
    acknowledgement nor an error, reject or abort raises RuntimeError.  In
    both cases the application is unchanged. *)
Theorem confirmation_resolves_nothing (apdu : APDU) (self : t) :
  (controllers self !! pduSource apdu = None →
     confirmation apdu self = (self, Return tt)) ∧
  (is_Some (controllers self !! pduSource apdu) →
   resolution apdu = None →
     confirmation apdu self = (self, Raise (RuntimeError "unrecognized APDU type"))).
Proof.
  unfold confirmation, resolution. split.
  - intros Hc. erewrite bind_eq; [|reflexivity]. by rewrite Hc.
  - intros [c Hc] Hres. erewrite bind_eq; [|reflexivity]. rewrite Hc.
    by destruct (pdu_type apdu).
Qed.

Lemma confirmation_resolves_nothing_witness :
  confirmation stray two_reads = (two_reads, Return tt) ∧
  confirmation echoed_request two_reads
    = (two_reads, Raise (RuntimeError "unrecognized APDU type")).
Proof.
  split.
  - apply (confirmation_resolves_nothing stray two_reads). by vm_compute.
  - apply (confirmation_resolves_nothing echoed_request two_reads);
      [vm_compute; by eexists|reflexivity].
Defined.

(** X17: a confirmed request to a destination without a controller is sent
    at once and registers a controller; the confirmation from that
    destination hands the request back resolved with it and removes the
    controller, so that only the send and the resolved request remain. *)
Theorem request_then_confirmation
    (apdu reply : APDU) (outcome : IOCB.Outcome) (self : t) :
  pdu_type apdu = ConfirmedRequestPDU →
  controllers self !! pduDestination apdu = None →
  pduSource reply = pduDestination apdu →
  resolution reply = Some outcome →
  ∃ self1,
    request apdu self = (self1, Return (Some (IOCB.__init__ apdu))) ∧
    downstream self1 = downstream self ++ [Request apdu] ∧
    is_Some (controllers self1 !! pduDestination apdu) ∧
    confirmation reply self1 =
      (set_completed (completed self ++ [IOCB.mk apdu outcome])
         (set_downstream (downstream self ++ [Request apdu]) self),
       Return tt).
Proof.
  intros Hty Hnone Hsrc Hres.
  destruct self as [objs ns ids ld cache ctls down comp]; simpl in *.
  eexists. split; [|split; [|split]].
  - unfold request. rewrite Hty. erewrite bind_eq; [|reflexivity]. simpl.
    rewrite Hnone. reflexivity.
  - done.
  - simpl. rewrite lookup_insert_eq. by eexists.
  - unfold confirmation. erewrite bind_eq; [|reflexivity]. simpl.
    rewrite Hsrc, lookup_insert_eq.
    unfold resolution in Hres.
    unfold ApplicationController.complete_io, ApplicationController.abort_io.
    destruct (pdu_type reply); try discriminate; injection Hres as <-;
      unfold bind, modify, hand_back, ret; simpl;
      rewrite delete_insert_eq, delete_insert_id by done;
      by rewrite app_nil_r.
Qed.

Lemma request_then_confirmation_witness :
  ∃ self1,
    request read1 bare_app = (self1, Return (Some (IOCB.__init__ read1))) ∧
    downstream self1 = downstream bare_app ++ [Request read1] ∧
    is_Some (controllers self1 !! pduDestination read1) ∧
    confirmation ack1 self1 =
      (set_completed (completed bare_app ++ [IOCB.mk read1 (IOCB.Completed ack1)])
         (set_downstream (downstream bare_app ++ [Request read1]) bare_app),
       Return tt).
Proof.
  apply (request_then_confirmation read1 ack1 (IOCB.Completed ack1) bare_app);
    reflexivity.
Defined.

(** X18: [indication] changes nothing but the downstream trace beyond what
    the helper did: it adds at most one response, none unless the message is
    a confirmed request, none when it raises, and a response it adds carries
    the message as its context. *)
Theorem indication_adds_at_most_one_response
    (helpers : string → option Helper) (apdu : APDU) (self : t) :
  let after_helper :=
    match helpers ("do_" +:+ class_name apdu) with
    | Some helperFn => (helperFn apdu self).1
    | None => self
    end in
  ∃ responses : list Error,
    (indication helpers apdu self).1 =
      set_downstream (downstream after_helper ++ (Response <$> responses)) after_helper ∧
    (length responses ≤ 1)%nat ∧
    (pdu_type apdu ≠ ConfirmedRequestPDU → responses = []) ∧
    (∀ resp, resp ∈ responses → context resp = apdu) ∧
    ((indication helpers apdu self).2 ≠ Return tt → responses = []).
Proof.
  simpl. unfold indication, is_confirmed_request.
  assert (Hnil : ∀ s : t, s = set_downstream (downstream s ++ (Response <$> [])) s).
  { intros s. destruct s; unfold set_downstream; simpl. by rewrite app_nil_r. }
  assert (Hnone : ∀ (s : t) (out : result IndicationExn unit),
            ∃ responses : list Error,
              s = set_downstream (downstream s ++ (Response <$> responses)) s ∧
              (length responses ≤ 1)%nat ∧
              (pdu_type apdu ≠ ConfirmedRequestPDU → responses = []) ∧
              (∀ resp, resp ∈ responses → context resp = apdu) ∧
              (out ≠ Return tt → responses = [])).
  { intros s out. exists []. split; [apply Hnil|]. split; [simpl; lia|].
    split; [done|]. split; [by intros ? ?%elem_of_nil|done]. }
  assert (Hone : ∀ (s : t) (c k : string),
            pdu_type apdu = ConfirmedRequestPDU →
            ∃ responses : list Error,
              set_downstream (downstream s ++ [Response (mkError c k apdu)]) s =
                set_downstream (downstream s ++ (Response <$> responses)) s ∧
              (length responses ≤ 1)%nat ∧
              (pdu_type apdu ≠ ConfirmedRequestPDU → responses = []) ∧
              (∀ resp, resp ∈ responses → context resp = apdu) ∧
              (@Return IndicationExn unit tt ≠ Return tt → responses = [])).
  { intros s c k Hty. exists [mkError c k apdu]. split; [done|]. split; [simpl; lia|].
    split; [by intros ?|]. split; [by intros resp ->%list_elem_of_singleton|done]. }
  destruct (helpers _) as [helperFn|].
  - destruct (helperFn apdu self) as [self' [[r|a|c k|x]|]] eqn:Hf; simpl;
      try apply Hnone;
      (destruct (pdu_type apdu) eqn:Hty; simpl; try apply Hnone; by apply Hone).
  - destruct (pdu_type apdu) eqn:Hty; simpl; apply Hnone.
Qed.

End DispatchFacts.

(** ** Release in a reachable cache *)

Module ReleaseFacts.
Import DeviceInfoCache DeviceInfoCacheFacts DeviceInfoCacheMore.

(** In a reachable cache a lookup never returns a record that no address
    names. *)
Lemma get_device_info_names self key self' found :
  identifier_free self →
  get_device_info key self = (self', Return (Some found)) →
  (∃ a, key = PyAddr a ∧ cache self !! PyAddr a = Some found)
  ∨ found = length (records self).
Proof.
  intros HJ Hget.
  destruct key as [n|a| |s]; try (simpl in Hget; unfold raise in Hget; congruence).
  - rewrite get_device_info_int, (no_int_key _ HJ) in Hget. congruence.
  - destruct (is_station a) eqn:Hst;
      [|unfold get_device_info in Hget; rewrite Hst in Hget;
        unfold raise in Hget; congruence].
    destruct (cache self !! PyAddr a) as [l|] eqn:Hc.
    + rewrite (get_device_info_hit a _ l Hst Hc) in Hget.
      injection Hget as _ <-. left. by exists a.
    + rewrite (get_device_info_miss a _ Hst Hc) in Hget.
      injection Hget as _ <-. by right.
Qed.

(** C6: for every cache reached from the empty one and every record it
    indexes, release returns normally and removes the entries under the
    record's stored keys.  Afterwards a lookup of the record's identifier
    returns none, and a lookup of its identifier, of its address or of any
    other key never returns the released record: by address it misses, and
    so finds another record or creates one. *)
Theorem release_device_info_misses
    (calls : list CacheCall) (info : ref) (d : DeviceInfo.t) (key : PyKey) :
  records (cache_run calls) !! info = Some d →
  cache (cache_run calls) !! key = Some info →
  ∃ self',
    release_device_info info (cache_run calls) = (self', Return tt) ∧
    records self' = records (cache_run calls) ∧
    (∀ cache_id cache_address,
       DeviceInfo._cache_keys d = Some (cache_id, cache_address) →
       (∀ i, cache_id = Some i → has_device_info (PyInt i) self' = false) ∧
       (∀ a, cache_address = Some a → has_device_info (PyAddr a) self' = false)) ∧
    (∀ i, DeviceInfo.deviceIdentifier d = Some i →
       get_device_info (PyInt i) self' = (self', Return None)) ∧
    (∀ self'' found,
       get_device_info (id_key (DeviceInfo.deviceIdentifier d)) self'
         = (self'', Return (Some found)) → found ≠ info) ∧
    (∀ self'' found,
       get_device_info (addr_key (DeviceInfo.address d)) self'
         = (self'', Return (Some found)) → found ≠ info) ∧
    (∀ key' self'' found,
       get_device_info key' self' = (self'', Return (Some found)) → found ≠ info).
Proof.
  intros Hd Hkey.
  pose proof (cache_run_identifier_free calls) as HJ.
  pose proof (cache_run_index_sound calls) as HS.
  pose proof (identifier_free_release info _ HJ) as HJ'.
  pose proof (index_sound_release info _ HJ HS) as HS'.
  assert (Hlt : (info < length (records (cache_run calls)))%nat)
    by (by eapply lookup_lt_Some).
  assert (Hkeys : ∃ cache_address,
            DeviceInfo._cache_keys d = Some (None, cache_address) ∧
            key = addr_key cache_address).
  { destruct key as [n|a| |s].
    - by rewrite (no_int_key _ HJ) in Hkey.
    - destruct (addr_entry _ HS a info Hkey) as (d' & Hd' & Hk').
      exists (Some a). split; [congruence|done].
    - destruct (none_entry _ HS info Hkey) as (d' & Hd' & Hk').
      exists None. split; [congruence|done].
    - by rewrite (other_entry _ HS) in Hkey. }
  destruct Hkeys as (cache_address & Hk & ->).
  rewrite (release_device_info_address_only _ _ _ _ Hd Hk) in HJ', HS' |- *.
  set (s' := match cache_address with
             | Some a => mk (records (cache_run calls))
                            (delete (PyAddr a) (cache (cache_run calls)))
             | None => cache_run calls
             end).
  assert (Hrel : match cache_address with
                 | Some a =>
                     match cache (cache_run calls) !! PyAddr a with
                     | Some _ =>
                         (mk (records (cache_run calls))
                             (delete (PyAddr a) (cache (cache_run calls))), Return tt)
                     | None => (cache_run calls, Raise KeyError)
                     end
                 | None => (cache_run calls, Return tt)
                 end = (s', Return tt)).
  { subst s'. destruct cache_address as [a|]; [|done]. simpl in Hkey. by rewrite Hkey. }
  rewrite Hrel in HJ', HS' |- *. simpl in HJ', HS'.
  assert (Hrec : records s' = records (cache_run calls))
    by (subst s'; by destruct cache_address).
  assert (Hgone : ∀ a, cache s' !! PyAddr a ≠ Some info).
  { intros a Ha. destruct (addr_entry _ HS' a info Ha) as (d' & Hd' & Hk').
    rewrite Hrec, Hd in Hd'. injection Hd' as <-. rewrite Hk in Hk'.
    injection Hk' as ->. subst s'. simpl in Ha. by rewrite lookup_delete_eq in Ha. }
  assert (Hany : ∀ key' self'' found,
            get_device_info key' s' = (self'', Return (Some found)) → found ≠ info).
  { intros key' self'' found Hget ->.
    destruct (get_device_info_names _ _ _ _ HJ' Hget) as [(a & -> & Ha)|Hnew].
    - by apply (Hgone a).
    - rewrite Hrec in Hnew. lia. }
  exists s'. split; [done|]. split; [done|]. split; [|split; [|split; [|split]]].
  - intros cache_id ca Hk'. rewrite Hk in Hk'. injection Hk' as <- <-.
    split; [done|]. intros a ->. unfold has_device_info. subst s'. simpl.
    rewrite lookup_delete_eq. apply bool_decide_eq_false_2. by intros [? ?].
  - intros i Hi. rewrite get_device_info_int. by rewrite (no_int_key _ HJ').
  - intros self'' found. apply Hany.
  - intros self'' found. apply Hany.
  - exact Hany.
Qed.

Lemma release_device_info_misses_witness :
  ∃ self',
    release_device_info 0%nat (cache_run [CallAdd (i_am station1)]) = (self', Return tt) ∧
    has_device_info (PyAddr station1) self' = false ∧
    get_device_info (PyInt 7) self' = (self', Return None) ∧
    (∀ self'' found,
       get_device_info (PyAddr station1) self' = (self'', Return (Some found)) →
       found ≠ 0%nat).
Proof.
  destruct (release_device_info_misses [CallAdd (i_am station1)] 0%nat
              (announced (i_am station1)) (PyAddr station1))
    as (self' & Hrel & _ & Hkeys & Hid & _ & Haddr & _);
    [by vm_compute|by vm_compute|].
  exists self'. split; [exact Hrel|]. split; [|split].
  - apply (Hkeys None (Some station1)); reflexivity.
  - apply Hid. reflexivity.
  - exact Haddr.
Defined.
End ReleaseFacts.

(** ** Confirmations over any controller *)

Module DispatcherFacts.
Import Application.

(** With the controller of [ApplicationController] for its parameters the
    dispatcher is the one of [Application]. *)
Lemma dispatcher_agrees (apdu : APDU) :
  Application.request apdu
    = Dispatcher.request ApplicationController.request_io apdu ∧
  Application.confirmation apdu
    = Dispatcher.confirmation ApplicationController.complete_io
        ApplicationController.abort_io apdu.
Proof. done. Qed.



End DispatcherFacts.
